(** * generate.py: assembling a PreTeXt book from a STACK question bank

    A shallow embedding of [src/generate.py] and the properties of it that
    the specification states.

    - The source directory is a finite tree [FsNode]; a listing is the
      list of its entries in the order [os.listdir] returned them.
    - Exceptions are values of [PyError]; code that can raise returns a
      [Result].
    - [render] and [make_files] run in a small state-and-error monad
      [IO] over a [World] that holds the working directory, the output
      disk and the log of the writing calls made so far. The disk maps a
      path, as the program wrote it, to a file or a directory; parent
      directories and other spellings of a path are not modelled.
    - python-slugify, lxml's serialiser and [os.path.relpath] are
      collaborators of the program, not part of it: they are the fields
      of the class [Collaborators]. *)

From Stdlib Require Import String Ascii List ZArith Lia Bool Arith.
Import ListNotations.
Local Open Scope list_scope.
Local Open Scope string_scope.
#[local] Set Warnings "-register-all".

(** ** Python strings *)

Definition dq : string := String (ascii_of_nat 34) EmptyString.
Definition nl : string := String (ascii_of_nat 10) EmptyString.

Definition is_empty (s : string) : bool :=
  match s with EmptyString => true | String _ _ => false end.

(** [s.endswith(suffix)] *)
Fixpoint endswith (s suffix : string) : bool :=
  (s =? suffix) ||
  match s with
  | EmptyString => false
  | String _ r => endswith r suffix
  end.

(** [s.split(sep)] for a one-character separator: never the empty list. *)
Fixpoint split (sep : ascii) (s : string) : list string :=
  match s with
  | EmptyString => [EmptyString]
  | String c r =>
      if Ascii.eqb c sep then EmptyString :: split sep r
      else match split sep r with
           | h :: t => String c h :: t
           | [] => [String c EmptyString]
           end
  end.

(** [l[-1]] on the result of a split. *)
Definition last_item (l : list string) : string := last l EmptyString.

(** [c in s] *)
Fixpoint occurs (c : ascii) (s : string) : bool :=
  match s with
  | EmptyString => false
  | String d r => Ascii.eqb d c || occurs c r
  end.

(** [name in paths] *)
Definition contains_name (name : string) (paths : list string) : bool :=
  existsb (String.eqb name) paths.

(** [txt] begins with [s]. *)
Definition begins (txt s : string) : Prop :=
  exists after, txt = s ++ after.

(** [txt] has [s] somewhere inside. *)
Definition embeds (txt s : string) : Prop :=
  exists before after, txt = before ++ s ++ after.

(** ** Exceptions *)

Inductive PyError :=
| XMLSyntaxError
| IndexError
| AttributeError
| KeyError
| NotADirectoryError
| IsADirectoryError
| FileExistsError
| UnicodeDecodeError.

Inductive Result (A : Type) :=
| Ok (a : A)
| Raise (e : PyError).
Arguments Ok {A} a.
Arguments Raise {A} e.

Definition rbind {A B} (r : Result A) (k : A -> Result B) : Result B :=
  match r with
  | Ok a => k a
  | Raise e => Raise e
  end.

Declare Scope result_scope.
Delimit Scope result_scope with result.
Notation "x <- r ;; k" := (rbind r (fun x => k))
  (at level 61, r at next level, right associativity) : result_scope.


(** ** [os.path.join] (posixpath), for two arguments *)

Module OsPath.

Definition sep : ascii := "/"%char.

Definition startswith_sep (b : string) : bool :=
  match b with
  | String c _ => Ascii.eqb c sep
  | EmptyString => false
  end.

Fixpoint endswith_sep (a : string) : bool :=
  match a with
  | EmptyString => false
  | String c EmptyString => Ascii.eqb c sep
  | String _ r => endswith_sep r
  end.

Definition join (a b : string) : string :=
  if startswith_sep b then b
  else if is_empty a || endswith_sep a then a ++ b
  else a ++ String sep b.

End OsPath.

(** ** lxml element trees and the xpath queries of the program *)

Module LXML.

Inductive element := Element {
  tag : string;
  attrib : list (string * string);
  text : option string;
  subelements : list element;
  tail : option string
}.

(** What [open(path)] and [ET.parse(f)] make of a file's bytes. The file
    is opened in text mode: bytes that do not decode raise
    [UnicodeDecodeError] when the parser reads them. *)
Inductive FileContent :=
| NotWellFormed
| Document (root : element)
| Undecodable.

Definition parse (c : FileContent) : Result element :=
  match c with
  | NotWellFormed => Raise XMLSyntaxError
  | Document root => Ok root
  | Undecodable => Raise UnicodeDecodeError
  end.

(** One child step [/name] from a node set, in document order. *)
Definition child_step (name : string) (context : list element) : list element :=
  flat_map (fun e => filter (fun c => tag c =? name) (subelements e)) context.

(** [tree.xpath("/s1/s2/...")]: an absolute path of child steps. *)
Definition xpath (steps : list string) (root : element) : list element :=
  match steps with
  | [] => []
  | s :: rest =>
      fold_left (fun context name => child_step name context) rest
                (if tag root =? s then [root] else [])
  end.

(** [e.tag = name] *)
Definition set_tag (e : element) (name : string) : element :=
  Element name (attrib e) (text e) (subelements e) (tail e).

(** [l[0]] *)
Definition first {A} (l : list A) : Result A :=
  match l with
  | [] => Raise IndexError
  | x :: _ => Ok x
  end.

End LXML.
Import LXML.

(** ** The source directory *)

Inductive FsNode :=
| RegularFile (content : FileContent)
| Directory (entries : list (string * FsNode)).

Definition isdir (n : FsNode) : bool :=
  match n with
  | Directory _ => true
  | RegularFile _ => false
  end.

(** The entry a name of the listing stands for. *)
Fixpoint entry (name : string) (entries : list (string * FsNode)) : option FsNode :=
  match entries with
  | [] => None
  | (n, x) :: rest => if n =? name then Some x else entry name rest
  end.

(** ** Collaborators *)

Class Collaborators := {
  (** python-slugify *)
  slugify : string -> string;
  (** [ET.tostring(e).decode()] *)
  tostring : element -> string;
  (** [os.path.relpath(path, start)], which reads the working directory:
      [relpath cwd path start] *)
  relpath : string -> string -> string -> string
}.

(** ** The document tree *)

Inductive PTXClass := PTXMain | PTXChapter | PTXSection | PTXSubsection.

Record PTXStackQuestion := {
  filepath : string;
  xmlid : string;
  title_tag : string
}.

(** An object of one of the four classes. [__init__] takes the title and
    the introduction; [questions] and [children] grow by [add_question]
    and [add_child]. The attributes that [__init__] computes from the
    title once and for all ([title_slug], [foldername], [filename],
    [xml_id]) are functions of the object, below. *)
Inductive PTXElement := PTXNode {
  cls : PTXClass;
  title : string;
  introduction : string;
  questions : list PTXStackQuestion;
  children : list PTXElement
}.

(** [elem_type(title, introduction)] *)
Definition new (elem_type : PTXClass) (title introduction : string) : PTXElement :=
  PTXNode elem_type title introduction [] [].

Definition add_question (self : PTXElement) (question : PTXStackQuestion) : PTXElement :=
  PTXNode (cls self) (title self) (introduction self)
          (questions self ++ [question])%list (children self).

Definition add_child (self child : PTXElement) : PTXElement :=
  PTXNode (cls self) (title self) (introduction self)
          (questions self) (children self ++ [child])%list.

(** Class attribute [element_name]; [PTXMain] has none. *)
Definition element_name (c : PTXClass) : option string :=
  match c with
  | PTXMain => None
  | PTXChapter => Some "chapter"
  | PTXSection => Some "section"
  | PTXSubsection => Some "subsection"
  end.

Definition level_map (level : Z) : Result PTXClass :=
  match level with
  | 0%Z => Ok PTXMain
  | 1%Z => Ok PTXChapter
  | 2%Z => Ok PTXSection
  | 3%Z => Ok PTXSubsection
  | _ => Raise KeyError
  end.

Definition gitsync_category : string := "gitsync_category.xml".

(** ** The output side: working directory, disk and the calls made *)

Inductive DiskEntry :=
| FileOnDisk (content : string)
| DirOnDisk.

Inductive OsCall :=
| WriteFile (path content : string)
| Makedirs (path : string) (exist_ok : bool).

Record World := {
  cwd : string;
  disk : list (string * DiskEntry);
  oslog : list OsCall
}.

Fixpoint lookup (path : string) (d : list (string * DiskEntry)) : option DiskEntry :=
  match d with
  | [] => None
  | (p, e) :: rest => if p =? path then Some e else lookup path rest
  end.

Definition logged (c : OsCall) (w : World) : World :=
  {| cwd := cwd w; disk := disk w; oslog := (oslog w ++ [c])%list |}.

Definition stored (path : string) (e : DiskEntry) (w : World) : World :=
  {| cwd := cwd w; disk := (path, e) :: disk w; oslog := oslog w |}.

Definition IO (A : Type) : Type := World -> Result A * World.

Definition ret {A} (a : A) : IO A := fun w => (Ok a, w).

Definition raise {A} (e : PyError) : IO A := fun w => (Raise e, w).

Definition bind {A B} (m : IO A) (k : A -> IO B) : IO B :=
  fun w =>
    match m w with
    | (Ok a, w') => k a w'
    | (Raise e, w') => (Raise e, w')
    end.

Declare Scope io_scope.
Delimit Scope io_scope with io.
Notation "x <- m ;; k" := (bind m (fun x => k))
  (at level 61, m at next level, right associativity) : io_scope.
Notation "m ;; k" := (bind m (fun _ => k))
  (at level 61, right associativity) : io_scope.

(** [os.getcwd()], which [os.path.relpath] calls. *)
Definition getcwd : IO string := fun w => (Ok (cwd w), w).

(** [with open(path, "w") as f: f.write(content)]: a directory cannot be
    opened for writing; a file is created or replaced. *)
Definition write_file (path content : string) : IO unit :=
  fun w =>
    let w := logged (WriteFile path content) w in
    match lookup path (disk w) with
    | Some DirOnDisk => (Raise IsADirectoryError, w)
    | _ => (Ok tt, stored path (FileOnDisk content) w)
    end.

(** [os.makedirs(path, exist_ok=...)]: a path that is a file is an error
    whatever [exist_ok] says; a directory that is there already is an
    error only without [exist_ok]. *)
Definition makedirs (path : string) (exist_ok : bool) : IO unit :=
  fun w =>
    let w := logged (Makedirs path exist_ok) w in
    match lookup path (disk w) with
    | Some (FileOnDisk _) => (Raise FileExistsError, w)
    | Some DirOnDisk => if exist_ok then (Ok tt, w) else (Raise FileExistsError, w)
    | None => (Ok tt, stored path DirOnDisk w)
    end.

(** [[f(x) for x in l]] *)
Fixpoint comprehension {A B} (l : list A) (f : A -> IO B) : IO (list B) :=
  match l with
  | [] => ret []
  | x :: rest => (y <- f x ;; ys <- comprehension rest f ;; ret (y :: ys))%io
  end.

(** ** The program *)

Section Generate.

Context {collaborators : Collaborators}.

(** *** [PTXStructuralElement] and its subclasses *)

Definition title_slug (self : PTXElement) : string := slugify (title self).

(** [PTXMain.__init__] replaces the folder and file name of the base class. *)
Definition foldername (self : PTXElement) : string :=
  match cls self with
  | PTXMain => "."
  | _ => title_slug self
  end.

Definition filename (self : PTXElement) : string :=
  match cls self with
  | PTXMain => "main.ptx"
  | _ => title_slug self ++ ".ptx"
  end.

(** Set by the three subclasses that inherit [render]; [PTXMain] sets none. *)
Definition xml_id (self : PTXElement) : option string :=
  match cls self with
  | PTXMain => None
  | PTXChapter => Some ("ch-" ++ title_slug self)
  | PTXSection => Some ("sec-" ++ title_slug self)
  | PTXSubsection => Some ("subsec-" ++ title_slug self)
  end.

(** Path relative to parent *)
Definition rel_path (self : PTXElement) : string :=
  OsPath.join (foldername self) (filename self).

Definition get_include (self : PTXElement) : string :=
  "<xi:include href=" ++ dq ++ rel_path self ++ dq ++ " />".

(** *** [PTXStackQuestion] *)

Definition PTXStackQuestion_init (filepath : string) (content : FileContent)
  : Result PTXStackQuestion :=
  (let xmlid := slugify filepath in
   tree <- parse content ;;
   let tag := xpath ["quiz"; "question"; "name"; "text"] tree in
   tag0 <- first tag ;;
   let tag0 := set_tag tag0 "title" in
   Ok {| filepath := filepath; xmlid := xmlid; title_tag := tostring tag0 |})%result.

Definition PTXStackQuestion_render (self : PTXStackQuestion) (relative_to : string)
  : IO string :=
  (here <- getcwd ;;
   let rel_path := relpath here (filepath self) relative_to in
   ret ("
            <exercise>
                " ++ title_tag self ++ "

                <!--<introduction>
                    <p></p>
                </introduction>-->

                <!-- A @label is required, becomes a filename in output -->
                <stack label=" ++ dq ++ xmlid self ++ dq ++ " xmlns:xi=" ++ dq ++ "http://www.w3.org/2001/XInclude" ++ dq ++ ">
                    <xi:include href=" ++ dq ++ rel_path ++ dq ++ " />
                </stack>
            </exercise>
            "))%io.

(** *** [render] *)

Definition PTXStructuralElement_render (self : PTXElement) (basepath : string)
  : IO string :=
  match element_name (cls self) with
  | None => raise AttributeError
  | Some element_name =>
      (let child_includes := String.concat nl (map get_include (children self)) in
       question_blocks <- comprehension (questions self)
                            (fun question => PTXStackQuestion_render question basepath) ;;
       let question_includes := String.concat nl question_blocks in
       match xml_id self with
       | None => raise AttributeError
       | Some xml_id =>
           ret ("
        <" ++ element_name ++ " xml:id=" ++ dq ++ xml_id ++ dq ++ " xmlns:xi=" ++ dq ++ "http://www.w3.org/2001/XInclude" ++ dq ++ ">
            <title>" ++ title self ++ "</title>
            <introduction>
                " ++ introduction self ++ "
                " ++ question_includes ++ "
            </introduction>
            " ++ child_includes ++ "
        </" ++ element_name ++ ">
        ")
       end)%io
  end.

Definition PTXMain_render (self : PTXElement) (basepath : string) : IO string :=
  let child_includes := String.concat nl (map get_include (children self)) in
  ret ("<?xml version=" ++ dq ++ "1.0" ++ dq ++ " encoding=" ++ dq ++ "utf-8" ++ dq ++ "?>

            <pretext xml:lang=" ++ dq ++ "en-US" ++ dq ++ " xmlns:xi=" ++ dq ++ "http://www.w3.org/2001/XInclude" ++ dq ++ ">
            <!-- we first include a file which contains the docinfo element: -->
            <xi:include href=" ++ dq ++ "./docinfo.ptx" ++ dq ++ " />

            <book xml:id=" ++ dq ++ title_slug self ++ dq ++ ">
                <title>" ++ title self ++ "</title>

                <!-- Include frontmatter -->
                <xi:include href=" ++ dq ++ "./frontmatter.ptx" ++ dq ++ " />

                <!-- Include chapters -->
                " ++ child_includes ++ "
                
                <!-- Include backmatter -->
                <xi:include href=" ++ dq ++ "./backmatter.ptx" ++ dq ++ " />

            </book>
            </pretext>
            ").

(** Method resolution: [PTXMain] overrides [render], the others inherit it. *)
Definition render (self : PTXElement) (basepath : string) : IO string :=
  match cls self with
  | PTXMain => PTXMain_render self basepath
  | _ => PTXStructuralElement_render self basepath
  end.

(** *** [make_files] *)

(** [basepath] is the path that will contain the ptx file and subfolders
    of this element. The source opens the file and then calls [render];
    [render] makes no call to the system and returns (see
    [render_returns]), so the text is taken first here and the file
    opened and written in one step. *)
Fixpoint make_files (self : PTXElement) (basepath : string) {struct self} : IO unit :=
  (let full_path := OsPath.join basepath (filename self) in
   content <- render self basepath ;;
   write_file full_path content ;;
   (fix each (l : list PTXElement) : IO unit :=
      match l with
      | [] => ret tt
      | child :: rest =>
          let child_path := OsPath.join basepath (foldername child) in
          makedirs child_path true ;;
          make_files child child_path ;;
          each rest
      end) (children self))%io.

(** *** [compile_structural_element] *)

(** The first statements of [compile_structural_element]: the title that
    the category file of the listing gives when there is one, the given
    title when there is none. A directory of that name cannot be opened. *)
Definition category_title (entries : list (string * FsNode)) (title : string)
  : Result string :=
  if contains_name gitsync_category (map fst entries) then
    match entry gitsync_category entries with
    | Some (RegularFile content) =>
        (tree <- parse content ;;
         let tag := xpath ["quiz"; "question"; "category"; "text"] tree in
         tag0 <- first tag ;;
         match text tag0 with
         | None => Raise AttributeError
         | Some t => Ok (last_item (split "/" t))
         end)%result
    | _ => Raise IsADirectoryError
    end
  else Ok title.

Fixpoint compile_structural_element (here : FsNode) (basepath title : string)
         (level : Z) {struct here} : Result PTXElement :=
  match here with
  | RegularFile _ => Raise NotADirectoryError
  | Directory paths =>
      (title <- category_title paths title ;;
       elem_type <- level_map level ;;
       let ptx_elem := new elem_type title EmptyString in
       (fix each (l : list (string * FsNode)) (ptx_elem : PTXElement)
          : Result PTXElement :=
          match l with
          | [] => Ok ptx_elem
          | (rel_path, node) :: rest =>
              let full_path := OsPath.join basepath rel_path in
              match node with
              | Directory _ =>
                  if (level <? 3)%Z then
                    child <- compile_structural_element node full_path rel_path
                                                        (level + 1)%Z ;;
                    each rest (add_child ptx_elem child)
                  else each rest ptx_elem
              | RegularFile content =>
                  if endswith rel_path ".xml"
                     && negb (rel_path =? gitsync_category)
                  then
                    question <- PTXStackQuestion_init full_path content ;;
                    each rest (add_question ptx_elem question)
                  else each rest ptx_elem
              end
          end) paths ptx_elem)%result
  end.

(** The two statements at the end of the module, run on the directory
    found at [source/stack]. *)
Definition main (source_stack : FsNode) : IO unit :=
  match compile_structural_element source_stack "source/stack" "Stats Gold" 0%Z with
  | Ok ptx_main => make_files ptx_main "source"
  | Raise e => raise e
  end.

End Generate.

(** ** A concrete instance, for running the program on examples *)

Module Demo.

(** Letters are lowered, digits kept; anything else separates words. *)
Definition slug_char (c : ascii) : option ascii :=
  let n := nat_of_ascii c in
  if ((97 <=? n) && (n <=? 122))%nat then Some c
  else if ((48 <=? n) && (n <=? 57))%nat then Some c
  else if ((65 <=? n) && (n <=? 90))%nat then Some (ascii_of_nat (n + 32))
  else None.

Fixpoint hyphenate (s : string) (started gap : bool) : string :=
  match s with
  | EmptyString => EmptyString
  | String c r =>
      match slug_char c with
      | Some c' =>
          if gap && started
          then String "-" (String c' (hyphenate r true false))
          else String c' (hyphenate r true false)
      | None => hyphenate r started true
      end
  end.

Definition ascii_slug (s : string) : string := hyphenate s false false.

Definition text_of (t : option string) : string :=
  match t with
  | Some s => s
  | None => EmptyString
  end.

(** Tag, text, children and tail; attributes and escaping left out. *)
Fixpoint serialize (e : element) : string :=
  "<" ++ tag e ++ ">" ++ text_of (text e)
  ++ (fix all (l : list element) : string :=
        match l with
        | [] => EmptyString
        | x :: r => serialize x ++ all r
        end) (subelements e)
  ++ "</" ++ tag e ++ ">" ++ text_of (tail e).

(** Path components after [normpath]. *)
Definition normalize (parts : list string) : list string :=
  rev (fold_left
         (fun acc p =>
            if (p =? EmptyString) || (p =? ".") then acc
            else if p =? ".." then List.tl acc
            else p :: acc)
         parts []).

Definition abspath (here p : string) : list string :=
  if OsPath.startswith_sep p then normalize (split "/" p)
  else normalize (split "/" here ++ split "/" p)%list.

Fixpoint common (a b : list string) : nat :=
  match a, b with
  | x :: a', y :: b' => if x =? y then S (common a' b') else 0
  | _, _ => 0
  end.

Definition relative_path (here path start : string) : string :=
  let s := abspath here start in
  let p := abspath here path in
  let i := common s p in
  let rel := (repeat ".." (List.length s - i) ++ skipn i p)%list in
  match rel with
  | [] => "."
  | _ => String.concat "/" rel
  end.

Definition collaborators : Collaborators :=
  {| slugify := ascii_slug;
     tostring := serialize;
     relpath := relative_path |}.

Definition leaf (name : string) (t : string) : element :=
  Element name [] (Some t) [] None.

Definition branch (name : string) (l : list element) : element :=
  Element name [] None l None.

(** A question file whose name is [t]. *)
Definition question_xml (t : string) : FileContent :=
  Document (branch "quiz" [branch "question" [branch "name" [leaf "text" t]]]).

(** A category file whose category is [t]. *)
Definition category_xml (t : string) : FileContent :=
  Document (branch "quiz" [branch "question" [branch "category" [leaf "text" t]]]).


(** [stack/Unit1/q1.xml], the scenario of the specification. *)
Definition stack_unit1 : FsNode :=
  Directory [("Unit1", Directory [("q1.xml", RegularFile (question_xml "First"))])].

(** Five levels of directories below the root, questions at every level,
    a category file in [B], listings not in alphabetical order. *)
Definition deep : FsNode :=
  Directory
    [("top.xml", RegularFile (question_xml "Top"));
     ("B", Directory
        [("q2.xml", RegularFile (question_xml "Two"));
         ("gitsync_category.xml", RegularFile (category_xml "A/B/Sales"));
         ("q1.xml", RegularFile (question_xml "One"));
         ("S", Directory
            [("T", Directory
               [("q.xml", RegularFile (question_xml "Three"));
                ("U", Directory
                   [("lost.xml", RegularFile (question_xml "Lost"));
                    ("V", Directory [])])])]);
         ("notes.txt", RegularFile NotWellFormed)]);
     ("A", Directory [])].

(** The listing of [B] in [deep]. *)
Definition sales : list (string * FsNode) :=
  [("q2.xml", RegularFile (question_xml "Two"));
   ("gitsync_category.xml", RegularFile (category_xml "A/B/Sales"));
   ("q1.xml", RegularFile (question_xml "One"));
   ("notes.txt", RegularFile NotWellFormed)].

(** A listing whose category file is not XML, and a tree that reaches it. *)
Definition broken : list (string * FsNode) :=
  [("gitsync_category.xml", RegularFile NotWellFormed)].

Definition around_broken : FsNode :=
  Directory [("A", Directory []); ("B", Directory [("C", Directory broken)])].


Definition chapter : PTXElement :=
  PTXNode PTXChapter "Unit 1" EmptyString [] [].

Definition book : PTXElement :=
  PTXNode PTXMain "Gold" EmptyString [] [chapter].

(** A chapter with one question, and a book whose two chapters have
    titles of one slug. *)
Definition first_question : PTXStackQuestion :=
  {| filepath := "source/stack/Unit1/q1.xml";
     xmlid := "source-stack-unit1-q1-xml";
     title_tag := "<title>First</title>" |}.

Definition unit1 : PTXElement :=
  PTXNode PTXChapter "Unit1" EmptyString [first_question] [].

Definition twin : PTXElement :=
  PTXNode PTXChapter "unit-1" EmptyString [first_question] [].

Definition twins : PTXElement :=
  PTXNode PTXMain "Gold" EmptyString [] [chapter; twin].

Definition world0 : World := {| cwd := "/home/book"; disk := []; oslog := [] |}.

End Demo.

(** ** What the statements speak of *)

Section Statements.

Context {collaborators : Collaborators}.

(** The sub-directories of a listing, in listing order. *)
Definition subdirectories (paths : list (string * FsNode)) : list (string * FsNode) :=
  filter (fun p => isdir (snd p)) paths.

(** A question resource by its name: the extension, and not the category file. *)
Definition is_question_name (name : string) : bool :=
  endswith name ".xml" && negb (name =? gitsync_category).

(** The question resources of a listing, in listing order. *)
Fixpoint question_files (paths : list (string * FsNode)) : list (string * FileContent) :=
  match paths with
  | [] => []
  | (name, RegularFile content) :: rest =>
      if is_question_name name then (name, content) :: question_files rest
      else question_files rest
  | (_, Directory _) :: rest => question_files rest
  end.

(** One more than the largest of [l], or 0 when there is none. *)
Definition rise (l : list nat) : nat :=
  fold_right (fun d m => Nat.max (S d) m) 0 l.

Definition total (l : list nat) : nat := fold_right Nat.add 0 l.

(** Levels of directories below a directory. *)
Fixpoint dir_depth (here : FsNode) : nat :=
  match here with
  | RegularFile _ => 0
  | Directory paths =>
      rise (flat_map (fun p => if isdir (snd p) then [dir_depth (snd p)] else [])
                     paths)
  end.

(** Directories at most [bound] levels below a directory, itself included. *)
Fixpoint dirs_visited (bound : nat) (here : FsNode) {struct here} : nat :=
  match here with
  | RegularFile _ => 0
  | Directory paths =>
      S (match bound with
         | 0 => 0
         | S b => total (map (fun p => dirs_visited b (snd p)) paths)
         end)
  end.

Fixpoint node_depth (self : PTXElement) : nat :=
  rise (map node_depth (children self)).

Fixpoint node_count (self : PTXElement) : nat :=
  S (total (map node_count (children self))).

(** The category file of a listing can be read: there is none, or it is
    XML with a category text. *)
Definition readable_category (paths : list (string * FsNode)) : bool :=
  match entry gitsync_category paths with
  | None => true
  | Some (RegularFile (Document root)) =>
      match xpath ["quiz"; "question"; "category"; "text"] root with
      | tag0 :: _ => match text tag0 with Some _ => true | None => false end
      | [] => false
      end
  | Some _ => false
  end.

(** A question resource can be read: it is XML with a name text. *)
Definition readable_question (content : FileContent) : bool :=
  match content with
  | Document root =>
      match xpath ["quiz"; "question"; "name"; "text"] root with
      | _ :: _ => true
      | [] => false
      end
  | NotWellFormed | Undecodable => false
  end.

(** A valid source tree: every file that the walk reads, down to [bound]
    levels below [here], can be read. *)
Fixpoint valid_tree (bound : nat) (here : FsNode) {struct here} : bool :=
  match here with
  | RegularFile _ => false
  | Directory paths =>
      readable_category paths
      && forallb (fun q => readable_question (snd q)) (question_files paths)
      && match bound with
         | 0 => true
         | S b => forallb (fun p => negb (isdir (snd p)) || valid_tree b (snd p)) paths
         end
  end.

(** The level at which the walk is [bound] levels above the last. *)
Definition level_of (bound : nat) : Z := (3 - Z.of_nat bound)%Z.

(** The specification's [identifier_for(role, slug)]. *)
Definition role_prefix (role : PTXClass) : string :=
  match role with
  | PTXMain => EmptyString
  | PTXChapter => "ch-"
  | PTXSection => "sec-"
  | PTXSubsection => "subsec-"
  end.

Definition identifier_for (role : PTXClass) (slug : string) : string :=
  role_prefix role ++ slug.

(** The loop of [compile_structural_element] on its own, the recursive
    call being [descend]. *)
Definition each_entry (descend : FsNode -> string -> string -> Result PTXElement)
           (basepath : string) (level : Z)
  : list (string * FsNode) -> PTXElement -> Result PTXElement :=
  fix each (l : list (string * FsNode)) (ptx_elem : PTXElement)
    : Result PTXElement :=
    match l with
    | [] => Ok ptx_elem
    | (rel_path, node) :: rest =>
        let full_path := OsPath.join basepath rel_path in
        match node with
        | Directory _ =>
            if (level <? 3)%Z then
              (child <- descend node full_path rel_path ;;
               each rest (add_child ptx_elem child))%result
            else each rest ptx_elem
        | RegularFile content =>
            if endswith rel_path ".xml"
               && negb (rel_path =? gitsync_category)
            then
              (question <- PTXStackQuestion_init full_path content ;;
               each rest (add_question ptx_elem question))%result
            else each rest ptx_elem
        end
    end.

(** The loop of [make_files] on its own, the recursive call being [descend]. *)
Definition each_child (descend : PTXElement -> string -> IO unit) (basepath : string)
  : list PTXElement -> IO unit :=
  fix each (l : list PTXElement) : IO unit :=
    match l with
    | [] => ret tt
    | child :: rest =>
        (let child_path := OsPath.join basepath (foldername child) in
         makedirs child_path true ;;
         descend child child_path ;;
         each rest)%io
    end.


(** [child] is what the walk builds for the sub-directory [p] of [basepath]. *)
Definition built_child (basepath : string) (level : Z)
           (child : PTXElement) (p : string * FsNode) : Prop :=
  compile_structural_element (snd p) (OsPath.join basepath (fst p)) (fst p)
                             (level + 1)%Z = Ok child.

(** [question] is what the walk builds for the resource [q] of [basepath]. *)
Definition built_question (basepath : string)
           (question : PTXStackQuestion) (q : string * FileContent) : Prop :=
  PTXStackQuestion_init (OsPath.join basepath (fst q)) (snd q) = Ok question.

(** A computation that only reads the working directory: it returns, it
    leaves the world as it found it, and it returns the same in every
    world with that working directory. *)
Definition read_only {A} (m : IO A) : Prop :=
  forall w, exists a, forall w', cwd w' = cwd w -> m w' = (Ok a, w').

(** Started in [w], a computation that ended in [out] made the calls
    [expected], in that order and no others, or a first part of them if
    it raised; the working directory stayed. *)
Definition performs (expected : list OsCall) (w : World)
           (out : Result unit * World) : Prop :=
  cwd (snd out) = cwd w
  /\ exists calls,
       oslog (snd out) = (oslog w ++ calls)%list
       /\ (exists rest, expected = (calls ++ rest)%list)
       /\ (fst out = Ok tt -> calls = expected).

(** A call, run. *)
Definition run_call (c : OsCall) : IO unit :=
  match c with
  | WriteFile path content => write_file path content
  | Makedirs path exist_ok => makedirs path exist_ok
  end.

(** Calls run one after the other, up to the first that raises. *)
Fixpoint run_calls (l : list OsCall) : IO unit :=
  match l with
  | [] => ret tt
  | c :: rest => (run_call c ;; run_calls rest)%io
  end.

(** On the disk [d] the path of the call is what the call asks for: a
    file for a write, a directory for [makedirs]. *)
Definition settled (d : list (string * DiskEntry)) (c : OsCall) : Prop :=
  match c with
  | WriteFile path _ => exists content, lookup path d = Some (FileOnDisk content)
  | Makedirs path _ => lookup path d = Some DirOnDisk
  end.

Definition with_exist_ok (c : OsCall) : Prop :=
  match c with
  | WriteFile _ _ => True
  | Makedirs _ exist_ok => exist_ok = true
  end.

(** The text that [render] returns in the world [w]. *)
Definition rendered (w : World) (self : PTXElement) (basepath : string) : string :=
  match fst (render self basepath w) with
  | Ok content => content
  | Raise _ => EmptyString
  end.

(** The specification's [write_tree(node, output_base_path)], as the calls
    it asks for: the node's file, then for each child in order its folder
    and its tree. *)
Fixpoint write_tree (w : World) (node : PTXElement) (output_base_path : string)
  : list OsCall :=
  WriteFile (OsPath.join output_base_path (filename node))
        (rendered w node output_base_path)
  :: flat_map
       (fun child =>
          let folder := OsPath.join output_base_path (foldername child) in
          Makedirs folder true :: write_tree w child folder)
       (children node).

(** *** For the properties of the rest of the program *)

Definition class_eqb (a b : PTXClass) : bool :=
  match a, b with
  | PTXMain, PTXMain | PTXChapter, PTXChapter
  | PTXSection, PTXSection | PTXSubsection, PTXSubsection => true
  | _, _ => false
  end.

(** The classes of a tree follow the levels from [level] on, and no node
    has an introduction. *)
Fixpoint shaped (level : Z) (node : PTXElement) {struct node} : bool :=
  match level_map level with
  | Ok elem_type => class_eqb (cls node) elem_type
  | Raise _ => false
  end
  && is_empty (introduction node)
  && forallb (shaped (level + 1)%Z) (children node).

(** The errors that a walk of a directory, begun at a level of
    [level_map], can raise. *)
Definition build_error (e : PyError) : bool :=
  match e with
  | XMLSyntaxError | IndexError | AttributeError | IsADirectoryError
  | UnicodeDecodeError => true
  | _ => false
  end.

(** The questions of a tree, node before children. *)
Fixpoint all_questions (node : PTXElement) : list PTXStackQuestion :=
  (questions node ++ flat_map all_questions (children node))%list.

(** Question resources in the directories at most [bound] levels below
    a directory, itself included. *)
Fixpoint questions_visited (bound : nat) (here : FsNode) {struct here} : nat :=
  match here with
  | RegularFile _ => 0
  | Directory paths =>
      List.length (question_files paths)
      + match bound with
        | 0 => 0
        | S b => total (map (fun p => questions_visited b (snd p)) paths)
        end
  end.

(** The text that [PTXStackQuestion.render] returns in the world [w]. *)
Definition exercise_block (w : World) (question : PTXStackQuestion)
           (relative_to : string) : string :=
  match fst (PTXStackQuestion_render question relative_to w) with
  | Ok block => block
  | Raise _ => EmptyString
  end.

Definition is_write (c : OsCall) : bool :=
  match c with
  | WriteFile _ _ => true
  | Makedirs _ _ => false
  end.

Definition call_path (c : OsCall) : string :=
  match c with
  | WriteFile path _ => path
  | Makedirs path _ => path
  end.

(** A name that is one component of a path, and not the parent
    directory: no slash in it, and not [..]. *)
Definition single (name : string) : bool :=
  negb (occurs "/" name) && negb (name =? "..").

(** Every file name and every folder name of the tree is such a name. *)
Fixpoint safe_names (self : PTXElement) : bool :=
  single (filename self)
  && forallb (fun child => single (foldername child) && safe_names child)
             (children self).

(** [basepath] joined with [names], one after the other. *)
Definition descend (basepath : string) (names : list string) : string :=
  fold_left OsPath.join names basepath.

(** No tag opens in [s]. *)
Definition plain (s : string) : bool := negb (occurs "<" s).

(** The listing of a directory. *)
Definition entries_of (here : FsNode) : list (string * FsNode) :=
  match here with
  | Directory paths => paths
  | RegularFile _ => []
  end.

(** What a call that returns makes of the entry at [path]. *)
Definition outcome (path : string) (before : option DiskEntry) (c : OsCall)
  : option DiskEntry :=
  match c with
  | WriteFile p content =>
      if p =? path then Some (FileOnDisk content) else before
  | Makedirs p _ =>
      if p =? path then
        match before with
        | None => Some DirOnDisk
        | Some _ => before
        end
      else before
  end.

(** What is wrong with the entry named as the category file, if anything. *)
Definition category_fault (x : FsNode) : option PyError :=
  match x with
  | Directory _ => Some IsADirectoryError
  | RegularFile NotWellFormed => Some XMLSyntaxError
  | RegularFile Undecodable => Some UnicodeDecodeError
  | RegularFile (Document root) =>
      match xpath ["quiz"; "question"; "category"; "text"] root with
      | [] => Some IndexError
      | tag0 :: _ =>
          match text tag0 with
          | None => Some AttributeError
          | Some _ => None
          end
      end
  end.

End Statements.

(** * Properties *)

(** ** Strings and paths *)

Lemma append_assoc (a b c : string) : (a ++ b) ++ c = a ++ b ++ c.
Proof.
  induction a as [| x a IH]; simpl; [reflexivity | now rewrite IH].
Qed.

Lemma append_empty_r (a : string) : a ++ EmptyString = a.
Proof.
  induction a as [| x a IH]; simpl; [reflexivity | now rewrite IH].
Qed.

Lemma embeds_inside (txt inner s : string) :
  embeds txt inner -> embeds inner s -> embeds txt s.
Proof.
  intros (b1 & a1 & ->) (b2 & a2 & ->).
  exists (b1 ++ b2), (a2 ++ a1).
  now rewrite !append_assoc.
Qed.

Module OsPathFacts.
Import OsPath.

Lemma startswith_sep_append (a b : string) :
  startswith_sep (a ++ b) = if is_empty a then startswith_sep b else startswith_sep a.
Proof. now destruct a. Qed.

Lemma endswith_sep_append (a b : string) :
  endswith_sep (a ++ b) = if is_empty b then endswith_sep a else endswith_sep b.
Proof.
  induction a as [| x a IH]; simpl.
  - now destruct b.
  - rewrite IH. destruct b as [| y b]; simpl.
    + now rewrite append_empty_r.
    + now destruct a.
Qed.

Lemma is_empty_append (a b : string) :
  is_empty (a ++ b) = is_empty a && is_empty b.
Proof. now destruct a. Qed.

Lemma is_empty_true (a : string) : is_empty a = true -> a = EmptyString.
Proof. now destruct a. Qed.

Lemma join_absolute (a b : string) : startswith_sep b = true -> join a b = b.
Proof. unfold join; now intros ->. Qed.

Lemma join_relative (a b : string) :
  startswith_sep b = false ->
  join a b = if is_empty a || endswith_sep a then a ++ b else a ++ String sep b.
Proof. unfold join; now intros ->. Qed.

Lemma endswith_sep_cons (f : string) :
  is_empty f = false -> endswith_sep (String sep f) = endswith_sep f.
Proof. now destruct f. Qed.

(** [os.path.join(a, os.path.join(f, g)) == os.path.join(a, f, g)] *)
Lemma join_assoc (a f g : string) : join a (join f g) = join (join a f) g.
Proof.
  destruct (startswith_sep g) eqn:Hg.
  - now rewrite !(join_absolute _ g Hg).
  - rewrite (join_relative f g Hg), (join_relative (join a f) g Hg).
    destruct (is_empty f) eqn:Ef.
    + apply is_empty_true in Ef; subst f; simpl.
      rewrite (join_relative a g Hg), (join_relative a EmptyString eq_refl).
      destruct (is_empty a) eqn:Ea; simpl.
      * apply is_empty_true in Ea; subst a; reflexivity.
      * destruct (endswith_sep a) eqn:Sa; simpl.
        -- now rewrite append_empty_r, Ea, Sa.
        -- rewrite is_empty_append, Ea, endswith_sep_append; simpl.
           now rewrite append_assoc.
    + simpl.
      assert (Hs : forall t, startswith_sep (f ++ t) = startswith_sep f)
        by (intros t; now rewrite startswith_sep_append, Ef).
      assert (He : forall t, is_empty (f ++ t) = false)
        by (intros t; now rewrite is_empty_append, Ef).
      destruct (startswith_sep f) eqn:Hf.
      * rewrite (join_absolute a f Hf), Ef; simpl.
        destruct (endswith_sep f); apply join_absolute; now rewrite Hs.
      * rewrite (join_relative a f Hf).
        assert (Hj : forall t, join a (f ++ t) = 
                  if is_empty a || endswith_sep a then a ++ f ++ t else a ++ String sep (f ++ t))
          by (intros t; apply join_relative; now rewrite Hs).
        assert (E1 : endswith_sep (a ++ f) = endswith_sep f)
          by now rewrite endswith_sep_append, Ef.
        assert (E2 : endswith_sep (a ++ String sep f) = endswith_sep f)
          by (rewrite endswith_sep_append; cbn [is_empty];
              now apply endswith_sep_cons).
        assert (N1 : is_empty (a ++ f) = false)
          by now rewrite is_empty_append, Ef, andb_false_r.
        assert (N2 : is_empty (a ++ String sep f) = false)
          by (rewrite is_empty_append; cbn [is_empty]; now rewrite andb_false_r).
        cbn [orb].
        destruct (is_empty a || endswith_sep a);
          rewrite ?N1, ?N2, ?E1, ?E2; cbn [orb];
          destruct (endswith_sep f); rewrite Hj, ?append_assoc;
          cbn [append]; rewrite ?append_assoc; reflexivity.
Qed.

End OsPathFacts.

(** ** Splitting at a separator *)

Lemma split_not_nil (c : ascii) (s : string) : split c s <> [].
Proof.
  destruct s as [| d r]; simpl; [discriminate |].
  destruct (Ascii.eqb d c); [discriminate |].
  destruct (split c r); discriminate.
Qed.

Lemma last_item_cons (x : string) (l : list string) :
  l <> [] -> last_item (x :: l) = last_item l.
Proof. destruct l; [congruence | reflexivity]. Qed.

(** Without a separator there is one segment, the string. *)
Lemma split_whole (c : ascii) (s : string) :
  occurs c s = false -> split c s = [s].
Proof.
  induction s as [| d r IH]; simpl; [reflexivity |].
  intros H. apply orb_false_iff in H as [Hd Hr].
  now rewrite Hd, (IH Hr).
Qed.

Lemma split_append_two (c : ascii) (a b : string) :
  exists h h' t, split c (a ++ String c b) = h :: h' :: t.
Proof.
  induction a as [| d r (h & h' & t & IH)]; simpl.
  - rewrite Ascii.eqb_refl.
    destruct (split c b) as [| x l] eqn:E; [now apply split_not_nil in E |].
    now exists EmptyString, x, l.
  - rewrite IH. destruct (Ascii.eqb d c); eauto.
Qed.

(** The last segment of [a ++ c ++ b] is the last segment of [b]. *)
Lemma last_item_split_append (c : ascii) (a b : string) :
  last_item (split c (a ++ String c b)) = last_item (split c b).
Proof.
  induction a as [| d r IH]; simpl.
  - rewrite Ascii.eqb_refl. apply last_item_cons, split_not_nil.
  - destruct (Ascii.eqb d c).
    + rewrite last_item_cons by apply split_not_nil. exact IH.
    + destruct (split_append_two c r b) as (h & h' & t & E).
      rewrite E in *. exact IH.
Qed.

Lemma last_segment_after (c : ascii) (a b : string) :
  occurs c b = false -> last_item (split c (a ++ String c b)) = b.
Proof.
  intros H. now rewrite last_item_split_append, split_whole.
Qed.

(** The last segment holds no separator. *)
Lemma last_item_split_clean (c : ascii) (s : string) :
  occurs c (last_item (split c s)) = false.
Proof.
  induction s as [| d r IH]; simpl; [reflexivity |].
  destruct (Ascii.eqb d c) eqn:E.
  - rewrite last_item_cons by apply split_not_nil. exact IH.
  - destruct (split c r) as [| h t] eqn:Er; [now apply split_not_nil in Er |].
    destruct t as [| h' t'].
    + unfold last_item in *; simpl in *. now rewrite E.
    + exact IH.
Qed.

(** ** Finding a piece of text in a template *)

Lemma begins_nil txt : begins txt EmptyString.
Proof. now exists txt. Qed.

Lemma begins_char c txt s : begins txt s -> begins (String c txt) (String c s).
Proof. intros [after ->]. now exists after. Qed.

Lemma begins_piece x txt s : begins txt s -> begins (x ++ txt) (x ++ s).
Proof. intros [after ->]. exists after. now rewrite append_assoc. Qed.

Lemma begins_last x txt : begins (x ++ txt) x.
Proof. now exists txt. Qed.

Lemma embeds_begins txt s : begins txt s -> embeds txt s.
Proof. intros [after ->]. now exists EmptyString, after. Qed.

Lemma embeds_skip_char c txt s : embeds txt s -> embeds (String c txt) s.
Proof. intros (before & after & ->). now exists (String c before), after. Qed.

Lemma embeds_skip_piece x txt s : embeds txt s -> embeds (x ++ txt) s.
Proof.
  intros (before & after & ->). exists (x ++ before), after.
  now rewrite append_assoc.
Qed.

Lemma embeds_refl s : embeds s s.
Proof. exists EmptyString, EmptyString. simpl. now rewrite append_empty_r. Qed.

Ltac begins_here :=
  solve [repeat first [ apply begins_nil | apply begins_char
                      | apply begins_piece | apply begins_last ]].

Ltac find_piece :=
  first [ apply embeds_begins; begins_here
        | apply embeds_skip_char; find_piece
        | apply embeds_skip_piece; find_piece ].

(** A line of a [join] holds each of the joined. *)
Lemma embeds_concat sep (x : string) (l : list string) :
  In x l -> embeds (String.concat sep l) x.
Proof.
  induction l as [| y [| z rest] IH]; intros Hin.
  - destruct Hin.
  - destruct Hin as [-> | []]. apply embeds_refl.
  - destruct Hin as [-> | Hin].
    + cbn [String.concat]. apply embeds_begins, begins_last.
    + change (String.concat sep (y :: z :: rest))
        with (y ++ sep ++ String.concat sep (z :: rest)).
      do 2 apply embeds_skip_piece. now apply IH.
Qed.

(** ** A tag that a text does not hold *)

Lemma embeds_empty_inv c p : ~ embeds EmptyString (String c p).
Proof.
  intros (before & after & H). destruct before; discriminate H.
Qed.

Lemma embeds_cons_inv c t p :
  embeds (String c t) p -> begins (String c t) p \/ embeds t p.
Proof.
  intros (before & after & H). destruct before as [| d before].
  - left. now exists after.
  - right. cbn [append] in H. injection H as _ ->. now exists before, after.
Qed.

(** A character that is not [<] opens no tag. *)
Lemma absent_char c t p :
  Ascii.eqb c "<" = false ->
  ~ embeds t (String "<" p) -> ~ embeds (String c t) (String "<" p).
Proof.
  intros Hc Ht H. apply embeds_cons_inv in H as [[after H] | H]; [| now apply Ht].
  cbn [append] in H. injection H as -> _. now rewrite Ascii.eqb_refl in Hc.
Qed.

(** A [<] before another character than the first of the tag's name
    does not open the tag. *)
Lemma absent_open d t i p :
  Ascii.eqb d i = false ->
  ~ embeds (String d t) (String "<" (String i p)) ->
  ~ embeds (String "<" (String d t)) (String "<" (String i p)).
Proof.
  intros Hd Ht H. apply embeds_cons_inv in H as [[after H] | H]; [| now apply Ht].
  cbn [append] in H. injection H as -> _. now rewrite Ascii.eqb_refl in Hd.
Qed.

(** A piece without [<] opens no tag. *)
Lemma absent_piece h t p :
  occurs "<" h = false ->
  ~ embeds t (String "<" p) -> ~ embeds (h ++ t) (String "<" p).
Proof.
  induction h as [| c h IH]; cbn [occurs append]; intros Hh Ht; [exact Ht |].
  apply orb_false_iff in Hh as [Hc Hh]. apply absent_char; auto.
Qed.

(** Pieces that open no tag, joined by a separator that opens none. *)
Lemma absent_concat sep l t p :
  (forall u, ~ embeds u (String "<" p) -> ~ embeds (sep ++ u) (String "<" p)) ->
  Forall (fun s => forall u, ~ embeds u (String "<" p)
                             -> ~ embeds (s ++ u) (String "<" p)) l ->
  ~ embeds t (String "<" p) -> ~ embeds (String.concat sep l ++ t) (String "<" p).
Proof.
  intros Hsep Hl Ht. induction Hl as [| s l Hs Hl IH]; [exact Ht |].
  destruct l as [| s' l'].
  - cbn [String.concat]. now apply Hs.
  - change (String.concat sep (s :: s' :: l'))
      with (s ++ sep ++ String.concat sep (s' :: l')).
    rewrite !append_assoc. apply Hs, Hsep, IH.
Qed.

Ltac no_tag :=
  repeat first
    [ apply embeds_empty_inv
    | apply absent_open; [first [assumption | reflexivity] |]
    | apply absent_char; [reflexivity |]
    | apply absent_piece; [first [assumption | reflexivity] |] ].

Section Properties.

Context {collaborators : Collaborators}.

(** ** Induction over the two trees *)

Lemma FsNode_induction (P : FsNode -> Prop) :
  (forall content, P (RegularFile content)) ->
  (forall paths, Forall (fun p => P (snd p)) paths -> P (Directory paths)) ->
  forall here, P here.
Proof.
  intros Hfile Hdir. fix IH 1. intros [content | paths].
  - apply Hfile.
  - apply Hdir. induction paths as [| [name x] rest IHrest]; constructor.
    + apply IH.
    + exact IHrest.
Qed.

Lemma PTXElement_induction (P : PTXElement -> Prop) :
  (forall c t i qs cs, Forall P cs -> P (PTXNode c t i qs cs)) ->
  forall self, P self.
Proof.
  intros Hnode. fix IH 1. intros [c t i qs cs].
  apply Hnode. induction cs as [| child rest IHrest]; constructor.
  - apply IH.
  - exact IHrest.
Qed.

(** ** The two recursive functions, one step unfolded *)

Lemma compile_structural_element_eq paths basepath title level :
  compile_structural_element (Directory paths) basepath title level =
  (title' <- category_title paths title ;;
   elem_type <- level_map level ;;
   each_entry (fun node full_path rel_path =>
                 compile_structural_element node full_path rel_path (level + 1)%Z)
              basepath level paths (new elem_type title' EmptyString))%result.
Proof. reflexivity. Qed.

Lemma make_files_eq self basepath :
  make_files self basepath =
  (content <- render self basepath ;;
   write_file (OsPath.join basepath (filename self)) content ;;
   each_child make_files basepath (children self))%io.
Proof. destruct self; reflexivity. Qed.

(** ** Computations that only read *)

Lemma read_only_ret {A} (a : A) : read_only (ret a).
Proof. intros w. now exists a. Qed.

Lemma read_only_getcwd : read_only getcwd.
Proof. intros w. exists (cwd w). intros w' E. unfold getcwd. now rewrite E. Qed.

Lemma read_only_bind {A B} (m : IO A) (k : A -> IO B) :
  read_only m -> (forall a, read_only (k a)) -> read_only (bind m k).
Proof.
  intros Hm Hk w.
  destruct (Hm w) as [a Ha]. destruct (Hk a w) as [b Hb].
  exists b. intros w' E. unfold bind. now rewrite (Ha w' E), (Hb w' E).
Qed.

Lemma read_only_comprehension {A B} (l : list A) (f : A -> IO B) :
  (forall x, read_only (f x)) -> read_only (comprehension l f).
Proof.
  intros Hf. induction l as [| x rest IH]; simpl.
  - apply read_only_ret.
  - apply read_only_bind; [apply Hf | intros y].
    apply read_only_bind; [exact IH | intros ys]. apply read_only_ret.
Qed.

Lemma read_only_question_render question relative_to :
  read_only (PTXStackQuestion_render question relative_to).
Proof.
  apply read_only_bind; [apply read_only_getcwd | intros here].
  apply read_only_ret.
Qed.

Lemma read_only_render self basepath : read_only (render self basepath).
Proof.
  unfold render, PTXMain_render, PTXStructuralElement_render, xml_id.
  destruct (cls self); simpl; try apply read_only_ret;
    (apply read_only_bind;
     [apply read_only_comprehension; intros q; apply read_only_question_render
     | intros blocks; apply read_only_ret]).
Qed.

(** [render] returns [rendered], wherever the working directory is the same. *)
Lemma render_rendered self basepath w w' :
  cwd w' = cwd w -> render self basepath w' = (Ok (rendered w self basepath), w').
Proof.
  intros E. destruct (read_only_render self basepath w) as [content H].
  unfold rendered. rewrite (H w eq_refl); simpl. now apply H.
Qed.

Lemma rendered_cwd self basepath w w' :
  cwd w' = cwd w -> rendered w' self basepath = rendered w self basepath.
Proof.
  intros E. unfold rendered at 1. now rewrite (render_rendered self basepath w w' E).
Qed.

Lemma write_tree_cwd w w' :
  cwd w' = cwd w ->
  forall self basepath, write_tree w' self basepath = write_tree w self basepath.
Proof.
  intros E self. induction self as [c t i qs cs IH] using PTXElement_induction.
  intros basepath. simpl. rewrite (rendered_cwd _ basepath w w' E). f_equal.
  induction IH as [| child rest Hchild _ IHrest]; simpl; [reflexivity |].
  now rewrite Hchild, IHrest.
Qed.

(** ** The calls that [make_files] makes *)

Lemma performs_ret w : performs [] w (ret tt w).
Proof.
  split; [reflexivity |]. exists []. simpl.
  rewrite app_nil_r. split; [reflexivity |]. split; [now exists [] | reflexivity].
Qed.

Lemma performs_write_file path content w :
  performs [WriteFile path content] w (write_file path content w).
Proof.
  unfold write_file, performs.
  destruct (lookup path (disk (logged (WriteFile path content) w))) as [[c |] |];
    simpl; (split; [reflexivity |]); exists [WriteFile path content];
    (split; [reflexivity |]); (split; [now exists [] | reflexivity]).
Qed.

Lemma performs_makedirs path exist_ok w :
  performs [Makedirs path exist_ok] w (makedirs path exist_ok w).
Proof.
  unfold makedirs, performs.
  destruct (lookup path (disk (logged (Makedirs path exist_ok) w))) as [[c |] |];
    [| destruct exist_ok |];
    simpl; (split; [reflexivity |]); eexists;
    (split; [reflexivity |]); (split; [now exists [] | reflexivity]).
Qed.

Lemma performs_seq (m k : IO unit) e1 e2 w :
  performs e1 w (m w) ->
  (forall w1, cwd w1 = cwd w -> performs e2 w1 (k w1)) ->
  performs (e1 ++ e2)%list w (bind m (fun _ => k) w).
Proof.
  unfold bind. intros (Hc & calls & Hlog & (rest & Hrest) & Hok) Hk.
  destruct (m w) as [[[] | e] w1]; simpl in *.
  - specialize (Hok eq_refl). subst calls.
    destruct (Hk w1 Hc) as (Hc2 & calls2 & Hlog2 & (rest2 & Hrest2) & Hok2).
    split; [congruence |]. exists (e1 ++ calls2)%list. repeat split.
    + now rewrite Hlog2, Hlog, app_assoc.
    + exists rest2. now rewrite Hrest2, app_assoc.
    + intros E. now rewrite (Hok2 E).
  - split; [exact Hc |]. exists calls. repeat split.
    + exact Hlog.
    + exists (rest ++ e2)%list. now rewrite Hrest, app_assoc.
    + discriminate.
Qed.

Lemma performs_expected expected expected' w out :
  expected' = expected -> performs expected w out -> performs expected' w out.
Proof. now intros ->. Qed.

(** [make_files] makes the calls of [write_tree]. *)
Lemma make_files_performs self :
  forall basepath w,
    performs (write_tree w self basepath) w (make_files self basepath w).
Proof.
  induction self as [c t i qs cs IH] using PTXElement_induction.
  intros basepath w. rewrite make_files_eq.
  unfold bind at 1. rewrite (render_rendered _ basepath w w eq_refl).
  cbn [write_tree children].
  change (?x :: ?l) with ([x] ++ l)%list.
  apply performs_seq; [apply performs_write_file |].
  intros w1 E1. revert w1 E1.
  induction IH as [| child rest Hchild _ IHrest]; intros w1 E1.
  - apply performs_ret.
  - cbn [each_child flat_map].
    match goal with
    | |- performs ((?x :: ?a) ++ ?b)%list _ _ =>
        apply (performs_expected ([x] ++ a ++ b)%list); [reflexivity |]
    end.
    apply performs_seq; [apply performs_makedirs |].
    intros w2 E2. apply performs_seq.
    + rewrite <- (write_tree_cwd w w2) by congruence. apply Hchild.
    + intros w3 E3. apply IHrest. congruence.
Qed.

(** ** What the loop of [compile_structural_element] returns *)

Lemma rbind_ok {A B} (r : Result A) (k : A -> Result B) (b : B) :
  rbind r k = Ok b -> exists a, r = Ok a /\ k a = Ok b.
Proof. destruct r as [a | e]; simpl; [eauto | discriminate]. Qed.

Lemma each_entry_ok descend basepath level l :
  forall ptx_elem node,
    each_entry descend basepath level l ptx_elem = Ok node ->
    cls node = cls ptx_elem /\ title node = title ptx_elem
    /\ introduction node = introduction ptx_elem
    /\ exists cs qs,
        children node = (children ptx_elem ++ cs)%list
        /\ questions node = (questions ptx_elem ++ qs)%list
        /\ Forall2 (fun c p => descend (snd p) (OsPath.join basepath (fst p)) (fst p) = Ok c)
                   cs (if (level <? 3)%Z then subdirectories l else [])
        /\ Forall2 (built_question basepath) qs (question_files l).
Proof.
  induction l as [| [rel_path here] rest IH]; intros ptx_elem node H.
  - injection H as <-. repeat split. exists [], [].
    rewrite !app_nil_r. destruct (level <? 3)%Z; repeat split; constructor.
  - cbn [each_entry] in H. destruct here as [content | paths].
    + cbn [question_files]. unfold is_question_name.
      replace (subdirectories ((rel_path, RegularFile content) :: rest))
        with (subdirectories rest) by reflexivity.
      destruct (endswith rel_path ".xml" && negb (rel_path =? gitsync_category)).
      * apply rbind_ok in H as (question & Hq & H).
        apply IH in H as (Hc & Ht & Hi & cs & qs & Hcs & Hqs & Fc & Fq).
        repeat split; trivial. exists cs, (question :: qs). repeat split; trivial.
        -- rewrite Hqs. simpl. now rewrite <- app_assoc.
        -- constructor; [exact Hq | exact Fq].
      * now apply IH.
    + cbn [question_files].
      replace (subdirectories ((rel_path, Directory paths) :: rest))
        with ((rel_path, Directory paths) :: subdirectories rest) by reflexivity.
      destruct (level <? 3)%Z.
      * apply rbind_ok in H as (child & Hchild & H).
        apply IH in H as (Hc & Ht & Hi & cs & qs & Hcs & Hqs & Fc & Fq).
        repeat split; trivial. exists (child :: cs), qs. repeat split; trivial.
        -- rewrite Hcs. simpl. now rewrite <- app_assoc.
        -- constructor; [exact Hchild | exact Fc].
      * now apply IH.
Qed.

Lemma each_entry_total descend basepath level l :
  ((level <? 3)%Z = true ->
   Forall (fun p => exists c, descend (snd p) (OsPath.join basepath (fst p)) (fst p) = Ok c)
          (subdirectories l)) ->
  Forall (fun q => exists question, built_question basepath question q)
         (question_files l) ->
  forall ptx_elem, exists node, each_entry descend basepath level l ptx_elem = Ok node.
Proof.
  induction l as [| [rel_path here] rest IH]; intros Hd Hq ptx_elem.
  - now exists ptx_elem.
  - cbn [each_entry]. destruct here as [content | paths].
    + cbn [question_files] in Hq. unfold is_question_name in Hq.
      destruct (endswith rel_path ".xml" && negb (rel_path =? gitsync_category)).
      * inversion Hq as [| q qs [question Hquestion] Hrest]; subst.
        unfold built_question in Hquestion; simpl in Hquestion.
        rewrite Hquestion; simpl. now apply IH.
      * now apply IH.
    + destruct (level <? 3)%Z eqn:E.
      * specialize (Hd eq_refl).
        inversion Hd as [| p ps [child Hchild] Hrest]; subst.
        simpl in Hchild. rewrite Hchild; simpl.
        apply IH; [intros _; exact Hrest | exact Hq].
      * apply IH; [discriminate | exact Hq].
Qed.

(** What a walk that returns has returned. *)
Lemma compile_structural_element_ok paths basepath provisional level node :
  compile_structural_element (Directory paths) basepath provisional level = Ok node ->
  exists title' elem_type,
    category_title paths provisional = Ok title'
    /\ level_map level = Ok elem_type
    /\ cls node = elem_type /\ title node = title'
    /\ introduction node = EmptyString
    /\ Forall2 (built_child basepath level) (children node)
               (if (level <? 3)%Z then subdirectories paths else [])
    /\ Forall2 (built_question basepath) (questions node) (question_files paths).
Proof.
  rewrite compile_structural_element_eq. intros H.
  apply rbind_ok in H as (title' & Ht & H).
  apply rbind_ok in H as (elem_type & Hl & H).
  apply each_entry_ok in H as (Hc & Htitle & Hi & cs & qs & Hcs & Hqs & Fc & Fq).
  exists title', elem_type. simpl in *. subst cs qs.
  repeat split; trivial.
Qed.

(** ** Files that can be read are read *)

Lemma contains_name_entry name (paths : list (string * FsNode)) :
  contains_name name (map fst paths) =
  match entry name paths with Some _ => true | None => false end.
Proof.
  induction paths as [| [n x] rest IH]; simpl; [reflexivity |].
  rewrite (String.eqb_sym name n). now destruct (n =? name).
Qed.

Lemma category_title_readable paths provisional :
  readable_category paths = true ->
  exists t, category_title paths provisional = Ok t.
Proof.
  unfold readable_category, category_title. rewrite contains_name_entry.
  intros H.
  destruct (entry gitsync_category paths) as [[[| root |] | sub] |];
    try discriminate H; [| eauto].
  cbn [parse rbind].
  destruct (xpath ["quiz"; "question"; "category"; "text"] root)
    as [| tag0 tags]; [discriminate H |].
  cbn [first rbind]. destruct (text tag0); [eauto | discriminate H].
Qed.

Lemma question_readable full_path content :
  readable_question content = true ->
  exists question, PTXStackQuestion_init full_path content = Ok question.
Proof.
  unfold readable_question, PTXStackQuestion_init. intros H.
  destruct content as [| root |]; [discriminate H | | discriminate H].
  cbn [parse rbind].
  destruct (xpath ["quiz"; "question"; "name"; "text"] root);
    [discriminate H | cbn [first rbind]; eauto].
Qed.

Lemma level_of_succ b : (level_of (S b) + 1)%Z = level_of b.
Proof. unfold level_of. lia. Qed.

Lemma level_of_below b : (level_of (S b) <? 3)%Z = true.
Proof. unfold level_of. apply Z.ltb_lt. lia. Qed.

Lemma level_map_level_of bound :
  bound <= 3 -> exists elem_type, level_map (level_of bound) = Ok elem_type.
Proof.
  intros H. destruct bound as [| [| [| [| b]]]]; try lia; simpl; eauto.
Qed.

(** A valid tree is compiled. *)
Lemma valid_tree_compiles here :
  forall bound basepath provisional,
    bound <= 3 ->
    valid_tree bound here = true ->
    exists node,
      compile_structural_element here basepath provisional (level_of bound) = Ok node.
Proof.
  induction here as [content | paths IH] using FsNode_induction;
    intros bound basepath provisional Hb Hv; [discriminate |].
  cbn [valid_tree] in Hv.
  apply andb_prop in Hv as [Hv Hsub]. apply andb_prop in Hv as [Hcat Hqs].
  rewrite compile_structural_element_eq.
  destruct (category_title_readable paths provisional Hcat) as [t ->].
  destruct (level_map_level_of bound Hb) as [elem_type ->]. simpl.
  apply each_entry_total.
  - intros Hlt. destruct bound as [| b]; [discriminate |].
    rewrite forallb_forall in Hsub. rewrite Forall_forall in IH.
    apply Forall_forall. intros [name x] Hin.
    apply filter_In in Hin as [Hin Hdir]. simpl in Hdir |- *.
    rewrite level_of_succ. apply (IH _ Hin); [lia |].
    specialize (Hsub _ Hin). simpl in Hsub. now rewrite Hdir in Hsub.
  - rewrite forallb_forall in Hqs. apply Forall_forall. intros q Hin.
    apply question_readable, Hqs, Hin.
Qed.

(** ** Depth and size of what is compiled *)

Lemma dir_depth_subdirectories paths :
  dir_depth (Directory paths) =
  rise (map (fun p => dir_depth (snd p)) (subdirectories paths)).
Proof.
  cbn [dir_depth]. f_equal.
  induction paths as [| [name x] rest IH]; simpl; [reflexivity |].
  rewrite IH. now destruct (isdir x).
Qed.

Lemma dirs_visited_subdirectories b paths :
  total (map (fun p => dirs_visited b (snd p)) paths) =
  total (map (fun p => dirs_visited b (snd p)) (subdirectories paths)).
Proof.
  induction paths as [| [name [content | sub]] rest IH]; simpl; auto.
Qed.

Lemma rise_cons d l : rise (d :: l) = Nat.max (S d) (rise l).
Proof. reflexivity. Qed.

Lemma total_cons d l : total (d :: l) = d + total l.
Proof. reflexivity. Qed.

Lemma compiled_measures here :
  forall bound basepath provisional node,
    bound <= 3 ->
    compile_structural_element here basepath provisional (level_of bound) = Ok node ->
    node_depth node = Nat.min (dir_depth here) bound
    /\ node_count node = dirs_visited bound here.
Proof.
  induction here as [content | paths IH] using FsNode_induction;
    intros bound basepath provisional node Hb H; [discriminate |].
  apply compile_structural_element_ok in H
    as (t & elem_type & _ & _ & _ & _ & _ & Hchildren & _).
  destruct node as [c t' i qs cs]. cbn [children] in Hchildren.
  cbn [node_depth node_count children dirs_visited].
  destruct bound as [| b].
  - change (level_of 0 <? 3)%Z with false in Hchildren.
    inversion Hchildren; subst. simpl. now rewrite Nat.min_0_r.
  - rewrite level_of_below in Hchildren.
    rewrite dir_depth_subdirectories, dirs_visited_subdirectories.
    assert (IH' : Forall (fun p => forall basepath provisional node,
                            compile_structural_element (snd p) basepath provisional
                                                       (level_of b) = Ok node ->
                            node_depth node = Nat.min (dir_depth (snd p)) b
                            /\ node_count node = dirs_visited b (snd p))
                         (subdirectories paths)).
    { rewrite Forall_forall in IH |- *. intros p Hin.
      apply filter_In in Hin as [Hin _]. intros bp pr nd.
      apply (IH p Hin); lia. }
    clear IH. induction Hchildren as [| child p cs' ps Hchild _ IHc].
    + simpl. split; reflexivity.
    + inversion IH' as [| p' ps' Hp Hps]; subst.
      unfold built_child in Hchild. rewrite level_of_succ in Hchild.
      apply Hp in Hchild as [Hd Hn].
      destruct (IHc Hps) as [IHd IHn].
      cbn [map]. rewrite !rise_cons, !total_cons. lia.
Qed.

(** ** [render] returns, and what it returns *)

Lemma render_returns self basepath w :
  render self basepath w = (Ok (rendered w self basepath), w).
Proof. now apply render_rendered. Qed.

Lemma question_blocks_return qs basepath w :
  exists blocks,
    comprehension qs (fun question => PTXStackQuestion_render question basepath) w
    = (Ok blocks, w).
Proof.
  destruct (read_only_comprehension qs
              (fun question => PTXStackQuestion_render question basepath)
              (fun q => read_only_question_render q basepath) w) as [blocks H].
  exists blocks. now apply H.
Qed.

(** The identifier and the inclusions in the text of a node. *)
Lemma render_embeds self basepath w :
  exists content,
    render self basepath w = (Ok content, w)
    /\ embeds content
         ("xml:id=" ++ dq ++ identifier_for (cls self) (title_slug self) ++ dq)
    /\ embeds content (String.concat nl (map get_include (children self))).
Proof.
  unfold render, PTXMain_render, PTXStructuralElement_render, xml_id, identifier_for.
  destruct (question_blocks_return (questions self) basepath w) as [blocks Hb].
  destruct (cls self); cbn [element_name role_prefix]; unfold bind, ret;
    rewrite ?Hb; eexists; (split; [reflexivity |]);
    cbn [append]; split; find_piece.
Qed.

(** ** [make_files] is its calls, and a second run *)

Lemma run_calls_app l1 l2 w :
  run_calls (l1 ++ l2)%list w = bind (run_calls l1) (fun _ => run_calls l2) w.
Proof.
  revert w. induction l1 as [| c l1 IH]; intros w; [reflexivity |].
  cbn [app run_calls]. unfold bind.
  destruct (run_call c w) as [[[] | e] w1]; [| reflexivity].
  rewrite IH. reflexivity.
Qed.

Lemma make_files_cwd self basepath w :
  cwd (snd (make_files self basepath w)) = cwd w.
Proof. apply make_files_performs. Qed.

(** Running [make_files] is running the calls of [write_tree]. *)
Lemma make_files_run_calls self :
  forall basepath w,
    make_files self basepath w = run_calls (write_tree w self basepath) w.
Proof.
  induction self as [c t i qs cs IH] using PTXElement_induction.
  intros basepath w. rewrite make_files_eq.
  unfold bind at 1. rewrite render_returns.
  cbn [write_tree children run_calls run_call]. unfold bind.
  set (self := PTXNode c t i qs cs).
  pose proof (performs_write_file (OsPath.join basepath (filename self))
                (rendered w self basepath) w) as [Hcwd _].
  destruct (write_file (OsPath.join basepath (filename self))
                       (rendered w self basepath) w) as [[[] | e] w1];
    [| reflexivity].
  cbn [snd] in Hcwd. clear self. revert w1 Hcwd.
  induction IH as [| child rest Hchild _ IHrest]; intros w1 E1; [reflexivity |].
  cbn [each_child flat_map]. rewrite <- app_comm_cons.
  cbn [run_calls run_call]. unfold bind at 1 3.
  pose proof (performs_makedirs (OsPath.join basepath (foldername child)) true w1)
    as [E2 _].
  destruct (makedirs (OsPath.join basepath (foldername child)) true w1)
    as [[[] | e] w2]; [| reflexivity].
  cbn [snd] in E2. rewrite run_calls_app. unfold bind.
  rewrite <- (write_tree_cwd w w2) by congruence. rewrite <- Hchild.
  pose proof (make_files_cwd child (OsPath.join basepath (foldername child)) w2)
    as E3.
  destruct (make_files child (OsPath.join basepath (foldername child)) w2)
    as [[[] | e] w3]; [| reflexivity].
  cbn [snd] in E3. apply IHrest. congruence.
Qed.

Lemma lookup_stored path e w p :
  lookup p (disk (stored path e w)) =
  if path =? p then Some e else lookup p (disk w).
Proof. reflexivity. Qed.

(** A call that returns leaves files files and directories directories,
    and its own path is then what it asked for. *)
Lemma run_call_settles c w w1 :
  run_call c w = (Ok tt, w1) ->
  settled (disk w1) c
  /\ forall c', settled (disk w) c' -> settled (disk w1) c'.
Proof.
  destruct c as [path content | path exist_ok]; cbn [run_call].
  - unfold write_file. cbn [logged disk].
    destruct (lookup path (disk w)) as [[old |] |] eqn:E; intros H;
      try discriminate H; injection H as <-.
    + split.
      * exists content. rewrite lookup_stored. now rewrite String.eqb_refl.
      * intros [p t | p b]; cbn [settled]; rewrite lookup_stored;
          destruct (String.eqb_spec path p) as [<- | N]; eauto.
        rewrite E. discriminate.
    + split.
      * exists content. rewrite lookup_stored. now rewrite String.eqb_refl.
      * intros [p t | p b]; cbn [settled]; rewrite lookup_stored;
          destruct (String.eqb_spec path p) as [<- | N]; eauto.
        rewrite E. discriminate.
  - unfold makedirs. cbn [logged disk].
    destruct (lookup path (disk w)) as [[old |] |] eqn:E; intros H.
    + discriminate H.
    + destruct exist_ok; [| discriminate H]. injection H as <-.
      split; [exact E | trivial].
    + injection H as <-. split.
      * cbn [settled]. rewrite lookup_stored. now rewrite String.eqb_refl.
      * intros [p t | p b]; cbn [settled]; rewrite lookup_stored;
          destruct (String.eqb_spec path p) as [<- | N]; eauto.
        rewrite E. intros [t' Ht]. discriminate Ht.
Qed.

Lemma run_calls_settle l :
  forall w w1,
    run_calls l w = (Ok tt, w1) ->
    Forall (settled (disk w1)) l
    /\ forall c, settled (disk w) c -> settled (disk w1) c.
Proof.
  induction l as [| c rest IH]; intros w w1 H.
  - injection H as <-. split; [constructor | trivial].
  - cbn [run_calls] in H. unfold bind in H.
    destruct (run_call c w) as [[[] | e] w'] eqn:E; [| discriminate H].
    destruct (run_call_settles c w w' E) as [Hc Hkeep].
    destruct (IH w' w1 H) as [Hrest Hkeep'].
    split; [constructor |]; auto.
Qed.

(** Calls that are all settled, directories asked for with [exist_ok],
    all return. *)
Lemma settled_calls_return l :
  Forall with_exist_ok l ->
  forall w, Forall (settled (disk w)) l -> exists w1, run_calls l w = (Ok tt, w1).
Proof.
  induction 1 as [| c rest Hok _ IH]; intros w Hs.
  - now exists w.
  - inversion Hs as [| c' rest' Hc Hrest]; subst.
    assert (Hrun : exists w', run_call c w = (Ok tt, w')).
    { destruct c as [path content | path exist_ok]; cbn [run_call].
      - destruct Hc as [t Ht]. unfold write_file. cbn [logged disk]. rewrite Ht.
        eauto.
      - cbn [settled] in Hc. cbn [with_exist_ok] in Hok. subst exist_ok.
        unfold makedirs. cbn [logged disk]. rewrite Hc. eauto. }
    destruct Hrun as [w' Hrun].
    destruct (run_call_settles c w w' Hrun) as [_ Hkeep].
    destruct (IH w') as [w1 H1].
    { apply Forall_forall. intros c' Hin. apply Hkeep.
      rewrite Forall_forall in Hrest. now apply Hrest. }
    exists w1. cbn [run_calls]. unfold bind. now rewrite Hrun.
Qed.

Lemma write_tree_exist_ok w self :
  forall basepath, Forall with_exist_ok (write_tree w self basepath).
Proof.
  induction self as [c t i qs cs IH] using PTXElement_induction.
  intros basepath. cbn [write_tree children]. constructor; [exact I |].
  induction IH as [| child rest Hchild _ IHrest]; [constructor |].
  cbn [flat_map]. rewrite <- app_comm_cons. constructor; [reflexivity |].
  apply Forall_app. split; [apply Hchild | exact IHrest].
Qed.

(** After a run that returned, a second run returns: what the first has
    made is no obstacle, directories least of all. *)
Lemma make_files_again self basepath w w1 :
  make_files self basepath w = (Ok tt, w1) ->
  exists w2, make_files self basepath w1 = (Ok tt, w2).
Proof.
  intros H.
  pose proof (make_files_cwd self basepath w) as Hcwd. rewrite H in Hcwd.
  cbn [snd] in Hcwd.
  rewrite make_files_run_calls in H.
  apply run_calls_settle in H as [Hsettled _].
  rewrite make_files_run_calls, (write_tree_cwd w w1 Hcwd).
  apply settled_calls_return; [apply write_tree_exist_ok | exact Hsettled].
Qed.

(** ** The first call of [make_files] *)

Lemma run_call_log c w : oslog (snd (run_call c w)) = (oslog w ++ [c])%list.
Proof.
  destruct c as [path content | path exist_ok]; cbn [run_call].
  - unfold write_file. cbn [logged disk].
    now destruct (lookup path (disk w)) as [[old |] |].
  - unfold makedirs. cbn [logged disk].
    destruct (lookup path (disk w)) as [[old |] |]; [| destruct exist_ok |];
      reflexivity.
Qed.

Lemma run_calls_log l :
  forall w, exists calls, oslog (snd (run_calls l w)) = (oslog w ++ calls)%list.
Proof.
  induction l as [| c rest IH]; intros w.
  - exists []. cbn. now rewrite app_nil_r.
  - cbn [run_calls]. unfold bind. pose proof (run_call_log c w) as Hc.
    destruct (run_call c w) as [[[] | e] w1]; cbn [snd] in Hc.
    + destruct (IH w1) as [calls Hcalls]. exists (c :: calls).
      now rewrite Hcalls, Hc, <- app_assoc.
    + now exists [c].
Qed.

(** Whatever becomes of it, a run of [make_files] begins with the write
    of the file of the node. *)
Lemma make_files_first_call self basepath w :
  exists rest,
    oslog (snd (make_files self basepath w))
    = (oslog w ++ WriteFile (OsPath.join basepath (filename self))
                            (rendered w self basepath) :: rest)%list.
Proof.
  rewrite make_files_run_calls.
  replace (write_tree w self basepath)
    with (WriteFile (OsPath.join basepath (filename self)) (rendered w self basepath)
          :: List.tl (write_tree w self basepath)) by now destruct self.
  cbn [run_calls]. unfold bind.
  pose proof (run_call_log (WriteFile (OsPath.join basepath (filename self))
                                      (rendered w self basepath)) w) as Hc.
  destruct (run_call _ w) as [[[] | e] w1]; cbn [snd] in Hc.
  - destruct (run_calls_log (List.tl (write_tree w self basepath)) w1)
      as [calls Hcalls].
    exists calls. now rewrite Hcalls, Hc, <- app_assoc.
  - now exists [].
Qed.

(** ** The claims about rendering and writing *)

(** C1. For a child [child] of [self], the text that [render] gives for
    [self] holds the reference [href="rel_path child"], the path of
    [get_include]; resolved from [basepath], the directory in which
    [make_files] writes the file of [self], that path is the very path
    [basepath/foldername/filename] at which [make_files] writes the file
    of [child]: [make_files] of [self] is its calls run, the write at
    that path among them; the run of [make_files] on [child] in its
    folder begins with that write, whatever becomes of it; and after a
    run on [self] that returns the write is in the log and a file is at
    that path. *)
Theorem include_resolves_to_child_file self child basepath w :
  In child (children self) ->
  let folder := OsPath.join basepath (foldername child) in
  let target := OsPath.join basepath (rel_path child) in
  (exists content,
     render self basepath w = (Ok content, w)
     /\ embeds content ("href=" ++ dq ++ rel_path child ++ dq))
  /\ target = OsPath.join folder (filename child)
  /\ (exists rest,
        write_tree w self basepath =
        WriteFile (OsPath.join basepath (filename self)) (rendered w self basepath) :: rest
        /\ In (WriteFile target (rendered w child folder)) rest)
  /\ (forall w',
        make_files self basepath w = (Ok tt, w') ->
        exists calls,
          oslog w' = (oslog w ++ calls)%list
          /\ In (WriteFile target (rendered w child folder)) calls)
  /\ make_files self basepath w = run_calls (write_tree w self basepath) w
  /\ (forall w1,
        exists rest,
          oslog (snd (make_files child folder w1))
          = (oslog w1 ++ WriteFile target (rendered w1 child folder) :: rest)%list)
  /\ (forall w',
        make_files self basepath w = (Ok tt, w') ->
        exists content, lookup target (disk w') = Some (FileOnDisk content)).
Proof.
  intros Hin folder target.
  assert (Htarget : target = OsPath.join folder (filename child))
    by apply OsPathFacts.join_assoc.
  assert (Hcall : In (WriteFile target (rendered w child folder))
                     (flat_map
                        (fun c =>
                           Makedirs (OsPath.join basepath (foldername c)) true
                           :: write_tree w c (OsPath.join basepath (foldername c)))
                        (children self))).
  { apply in_flat_map. exists child. split; [exact Hin |].
    right. destruct child; left. now rewrite Htarget. }
  assert (Hwritten : In (WriteFile target (rendered w child folder))
                        (write_tree w self basepath))
    by (destruct self; right; exact Hcall).
  split; [| split; [| split; [| split; [| split; [| split]]]]].
  - destruct (render_embeds self basepath w) as (content & Hr & _ & Hc).
    exists content. split; [exact Hr |].
    apply (embeds_inside _ _ _ Hc).
    apply (embeds_inside _ (get_include child)).
    + apply embeds_concat, in_map, Hin.
    + unfold get_include. cbn [append]. find_piece.
  - exact Htarget.
  - eexists. split; [destruct self; reflexivity | exact Hcall].
  - intros w' Hrun.
    destruct (make_files_performs self basepath w) as (_ & calls & Hlog & _ & Hok).
    rewrite Hrun in Hlog, Hok. exists calls. split; [exact Hlog |].
    rewrite (Hok eq_refl). exact Hwritten.
  - apply make_files_run_calls.
  - intros w1. rewrite Htarget. apply make_files_first_call.
  - intros w' Hrun. rewrite make_files_run_calls in Hrun.
    apply run_calls_settle in Hrun as [Hsettled _].
    rewrite Forall_forall in Hsettled. exact (Hsettled _ Hwritten).
Qed.

(** C5. The text of a node holds [xml:id="..."] with the prefix of its
    class before its slug: [ch-], [sec-], [subsec-], and nothing for the
    root. *)
Theorem identifier_is_prefix_and_slug self basepath w :
  exists content,
    render self basepath w = (Ok content, w)
    /\ embeds content
         ("xml:id=" ++ dq ++ identifier_for (cls self) (title_slug self) ++ dq)
    /\ identifier_for (cls self) (title_slug self) =
       match cls self with
       | PTXMain => title_slug self
       | PTXChapter => "ch-" ++ title_slug self
       | PTXSection => "sec-" ++ title_slug self
       | PTXSubsection => "subsec-" ++ title_slug self
       end
    /\ (cls self <> PTXMain ->
        xml_id self = Some (identifier_for (cls self) (title_slug self))).
Proof.
  destruct (render_embeds self basepath w) as (content & Hr & Hid & _).
  exists content. repeat split; trivial.
  - unfold identifier_for. now destruct (cls self).
  - unfold xml_id, identifier_for. intros Hc.
    destruct (cls self); [now elim Hc | reflexivity ..].
Qed.

(** C7. Two calls of [render] on a node, one after the other, return the
    same text and leave the world as it was; the text depends on the
    world through the working directory alone. *)
Theorem render_is_repeatable self basepath w :
  exists content,
    (first <- render self basepath ;;
     second <- render self basepath ;;
     ret (first, second))%io w = (Ok (content, content), w)
    /\ forall w', cwd w' = cwd w -> render self basepath w' = (Ok content, w').
Proof.
  exists (rendered w self basepath). split.
  - unfold bind, ret. now rewrite !render_returns.
  - intros w' E. now apply render_rendered.
Qed.

(** C8. [make_files] makes the calls of [write_tree], and is those calls
    run: first the file of the node, [render] of it written at
    [basepath/filename]; then for each child, in order, [makedirs] of
    [basepath/foldername] and the tree of the child in it. [makedirs] is
    called with [exist_ok], so that on a directory that is there it
    returns and changes nothing on the disk; and after a run that
    returned, a second run on what the first left returns as well. *)
Theorem make_files_is_write_tree self basepath w :
  performs (write_tree w self basepath) w (make_files self basepath w)
  /\ make_files self basepath w = run_calls (write_tree w self basepath) w
  /\ write_tree w self basepath =
     WriteFile (OsPath.join basepath (filename self)) (rendered w self basepath)
     :: flat_map
          (fun child =>
             Makedirs (OsPath.join basepath (foldername child)) true
             :: write_tree w child (OsPath.join basepath (foldername child)))
          (children self)
  /\ render self basepath w = (Ok (rendered w self basepath), w)
  /\ (forall path w1,
        lookup path (disk w1) = Some DirOnDisk ->
        makedirs path true w1 = (Ok tt, logged (Makedirs path true) w1))
  /\ (forall w1,
        make_files self basepath w = (Ok tt, w1) ->
        exists w2, make_files self basepath w1 = (Ok tt, w2)).
Proof.
  split; [apply make_files_performs |].
  split; [apply make_files_run_calls |].
  split; [now destruct self |].
  split; [apply render_returns |].
  split.
  - intros path w1 H. unfold makedirs. cbn [logged disk]. now rewrite H.
  - intros w1. apply make_files_again.
Qed.

(** ** Files that cannot be read abort the walk *)

Lemma Forall2_In_r {A B} (R : A -> B -> Prop) (l : list A) (l' : list B) (b : B) :
  Forall2 R l l' -> In b l' -> exists a, In a l /\ R a b.
Proof.
  induction 1 as [| a b' l l' Hab _ IH]; intros Hin; [destruct Hin |].
  destruct Hin as [-> | Hin].
  - exists a. split; [now left | exact Hab].
  - destruct (IH Hin) as (a' & Ha' & HR). exists a'. split; [now right | exact HR].
Qed.

Lemma question_init_fields full_path content question :
  PTXStackQuestion_init full_path content = Ok question ->
  filepath question = full_path /\ xmlid question = slugify full_path.
Proof.
  unfold PTXStackQuestion_init. intros H.
  apply rbind_ok in H as (tree & _ & H).
  apply rbind_ok in H as (tag0 & _ & H).
  injection H as <-. split; reflexivity.
Qed.


(** A question resource that cannot be read raises. *)
Lemma question_not_readable full_path content :
  readable_question content = false ->
  exists e, PTXStackQuestion_init full_path content = Raise e.
Proof.
  unfold readable_question, PTXStackQuestion_init.
  destruct content as [| root |]; cbn [parse rbind]; eauto.
  destruct (xpath ["quiz"; "question"; "name"; "text"] root);
    cbn [first rbind]; [eauto | discriminate].
Qed.

Lemma question_files_In name content paths :
  In (name, RegularFile content) paths ->
  is_question_name name = true ->
  In (name, content) (question_files paths).
Proof.
  induction paths as [| [n [c | sub]] rest IH]; intros Hin Hname.
  - destruct Hin.
  - cbn [question_files]. destruct Hin as [E | Hin].
    + injection E as -> ->. rewrite Hname. now left.
    + destruct (is_question_name n); [right |]; now apply IH.
  - cbn [question_files]. destruct Hin as [E | Hin]; [discriminate |].
    now apply IH.
Qed.

(** The directory that holds a question that cannot be read is not compiled. *)
Lemma unreadable_question_raises paths name content basepath provisional level :
  In (name, RegularFile content) paths ->
  is_question_name name = true ->
  (forall full_path, exists e, PTXStackQuestion_init full_path content = Raise e) ->
  exists e,
    compile_structural_element (Directory paths) basepath provisional level = Raise e.
Proof.
  intros Hin Hname Hbad.
  destruct (compile_structural_element (Directory paths) basepath provisional level)
    as [node | e] eqn:E; [exfalso | now exists e].
  apply compile_structural_element_ok in E
    as (_ & _ & _ & _ & _ & _ & _ & _ & Hqs).
  destruct (Forall2_In_r _ _ _ _ Hqs (question_files_In _ _ _ Hin Hname))
    as (question & _ & Hq).
  unfold built_question in Hq; simpl in Hq.
  destruct (Hbad (OsPath.join basepath name)) as [e He]. congruence.
Qed.



Lemma category_present paths root tag0 tags category provisional :
  entry gitsync_category paths = Some (RegularFile (Document root)) ->
  xpath ["quiz"; "question"; "category"; "text"] root = tag0 :: tags ->
  text tag0 = Some category ->
  category_title paths provisional = Ok (last_item (split "/" category)).
Proof.
  unfold category_title. rewrite contains_name_entry.
  intros -> Hx Ht. cbn [parse rbind]. rewrite Hx. cbn [first rbind]. now rewrite Ht.
Qed.

Lemma category_title_raises paths basepath provisional level e :
  category_title paths provisional = Raise e ->
  compile_structural_element (Directory paths) basepath provisional level = Raise e.
Proof.
  intros H. rewrite compile_structural_element_eq, H. reflexivity.
Qed.



(** ** What the text of the root does not hold *)

Lemma absent_include child i p :
  Ascii.eqb "x" i = false ->
  plain (rel_path child) = true ->
  forall u,
    ~ embeds u (String "<" (String i p)) ->
    ~ embeds (get_include child ++ u) (String "<" (String i p)).
Proof.
  intros Hi Hplain u Hu. apply negb_true_iff in Hplain.
  unfold get_include. rewrite !append_assoc. cbn [append]. no_tag.
  exact Hu.
Qed.

Lemma root_text_without self basepath w i p :
  cls self = PTXMain ->
  Ascii.eqb "x" i = false -> Ascii.eqb "?" i = false -> Ascii.eqb "p" i = false ->
  Ascii.eqb "!" i = false -> Ascii.eqb "b" i = false -> Ascii.eqb "t" i = false ->
  Ascii.eqb "/" i = false ->
  plain (title self) = true ->
  plain (title_slug self) = true ->
  forallb (fun child => plain (rel_path child)) (children self) = true ->
  exists content,
    render self basepath w = (Ok content, w)
    /\ ~ embeds content (String "<" (String i p)).
Proof.
  intros Hc Hx Hq Hp He Hb Ht Hs Htitle Hslug Hchildren.
  apply negb_true_iff in Htitle, Hslug.
  unfold render. rewrite Hc. unfold PTXMain_render, ret.
  eexists. split; [reflexivity |].
  assert (Hincludes : forall u,
             ~ embeds u (String "<" (String i p)) ->
             ~ embeds (String.concat nl (map get_include (children self)) ++ u)
                      (String "<" (String i p))).
  { intros u Hu. apply absent_concat; [| | exact Hu].
    - intros v Hv. now apply absent_piece.
    - rewrite forallb_forall in Hchildren. apply Forall_forall.
      intros s Hin. apply in_map_iff in Hin as (child & <- & Hin).
      intros v Hv. apply absent_include; auto. }
  cbn [append].
  repeat first [ apply Hincludes | progress no_tag ].
Qed.

(** ** The claims about the walk *)

(** C2. A valid source tree compiled from level 0 gives a document tree
    whose depth is the lesser of the depth of the source tree and 3, and
    which has one node for each directory at most 3 levels down. At level
    3 the sub-directories of a listing give no child, whatever they hold. *)
Theorem depth_and_count_bounded here basepath provisional :
  valid_tree 3 here = true ->
  (exists node,
     compile_structural_element here basepath provisional 0 = Ok node
     /\ node_depth node = Nat.min (dir_depth here) 3
     /\ node_count node = dirs_visited 3 here)
  /\ (forall paths path name node,
        compile_structural_element (Directory paths) path name 3 = Ok node ->
        children node = []).
Proof.
  intros Hv. split.
  - destruct (valid_tree_compiles here 3 basepath provisional (le_n 3) Hv)
      as [node Hnode].
    exists node. split; [exact Hnode |].
    now apply (compiled_measures here 3 basepath provisional).
  - intros paths path name node H.
    apply compile_structural_element_ok in H
      as (_ & _ & _ & _ & _ & _ & _ & Hcs & _).
    now inversion Hcs.
Qed.

(** C3. In a directory whose category file gives the category [category],
    the title of the node is the last segment of [category] between
    slashes, whatever the provisional title (the name of the directory):
    the walk resolves the title so, every node it returns has it, and it
    returns one when the tree is valid. *)
Theorem category_title_overrides paths root tag0 tags category basepath provisional :
  entry gitsync_category paths = Some (RegularFile (Document root)) ->
  xpath ["quiz"; "question"; "category"; "text"] root = tag0 :: tags ->
  text tag0 = Some category ->
  let segment := last_item (split "/" category) in
  category_title paths provisional = Ok segment
  /\ (forall level node,
        compile_structural_element (Directory paths) basepath provisional level
        = Ok node ->
        title node = segment)
  /\ (forall bound,
        bound <= 3 ->
        valid_tree bound (Directory paths) = true ->
        exists node,
          compile_structural_element (Directory paths) basepath provisional
                                     (level_of bound) = Ok node
          /\ title node = segment)
  /\ occurs "/" segment = false
  /\ (forall before after,
        category = before ++ String "/" after ->
        occurs "/" after = false ->
        segment = after)
  /\ (occurs "/" category = false -> segment = category).
Proof.
  intros He Hx Ht segment.
  pose proof (category_present paths root tag0 tags category provisional He Hx Ht)
    as Hcat.
  assert (Hnode : forall level node,
             compile_structural_element (Directory paths) basepath provisional level
             = Ok node ->
             title node = segment).
  { intros level node H.
    apply compile_structural_element_ok in H
      as (t & elem_type & Ht' & _ & _ & Htitle & _).
      rewrite Hcat in Ht'. injection Ht' as <-. exact Htitle. }
  split; [exact Hcat |]. split; [exact Hnode |]. split; [| split; [| split]].
  - intros bound Hb Hv.
    destruct (valid_tree_compiles _ bound basepath provisional Hb Hv) as [node H].
    exists node. split; [exact H | exact (Hnode _ _ H)].
  - apply last_item_split_clean.
  - intros before after -> Hclean. now apply last_segment_after.
  - intros Hclean. subst segment. now rewrite split_whole.
Qed.


(** C6. The questions of the node are the question resources of the
    listing, and its children the sub-directories of the listing, each in
    the order of the listing. *)
Theorem listing_order_preserved paths basepath provisional level node :
  compile_structural_element (Directory paths) basepath provisional level = Ok node ->
  map filepath (questions node)
  = map (fun q => OsPath.join basepath (fst q)) (question_files paths)
  /\ Forall2 (built_question basepath) (questions node) (question_files paths)
  /\ Forall2 (built_child basepath level) (children node)
             (if (level <? 3)%Z then subdirectories paths else []).
Proof.
  intros H.
  apply compile_structural_element_ok in H
    as (_ & _ & _ & _ & _ & _ & _ & Hcs & Hqs).
  split; [| split; assumption].
  clear Hcs. induction Hqs as [| question q qs files Hq _ IH]; [reflexivity |].
  cbn [map]. rewrite IH. f_equal.
  now apply question_init_fields in Hq.
Qed.


(** C10. At level 0 the question resources of the listing are read, in
    order, into the questions of the root: a valid listing gives a root
    with them, and one that cannot be read aborts the walk. But what
    [render] returns for a root, and what [make_files] does with it, is
    the same whatever its questions and its introduction are; and when
    no [<] is in the title, the slug and the paths of the children, the
    text of the root holds no [<introduction>] and no [<exercise>]. *)
Theorem root_questions_are_not_written paths basepath provisional :
  (valid_tree 3 (Directory paths) = true ->
   exists node,
     compile_structural_element (Directory paths) basepath provisional 0 = Ok node
     /\ cls node = PTXMain
     /\ Forall2 (built_question basepath) (questions node) (question_files paths))
  /\ (forall node,
        compile_structural_element (Directory paths) basepath provisional 0 = Ok node ->
        cls node = PTXMain
        /\ Forall2 (built_question basepath) (questions node) (question_files paths))
  /\ (forall name content,
        In (name, RegularFile content) paths ->
        is_question_name name = true ->
        readable_question content = false ->
        exists e,
          compile_structural_element (Directory paths) basepath provisional 0
          = Raise e)
  /\ (forall t i qs i' qs' cs path,
        render (PTXNode PTXMain t i qs cs) path = render (PTXNode PTXMain t i' qs' cs) path
        /\ make_files (PTXNode PTXMain t i qs cs) path
           = make_files (PTXNode PTXMain t i' qs' cs) path)
  /\ (forall root path w,
        cls root = PTXMain ->
        plain (title root) = true ->
        plain (title_slug root) = true ->
        forallb (fun child => plain (rel_path child)) (children root) = true ->
        exists content,
          render root path w = (Ok content, w)
          /\ ~ embeds content "<introduction>"
          /\ ~ embeds content "<exercise>").
Proof.
  assert (Hnode : forall node,
             compile_structural_element (Directory paths) basepath provisional 0
             = Ok node ->
             cls node = PTXMain
             /\ Forall2 (built_question basepath) (questions node)
                        (question_files paths)).
  { intros node H.
    apply compile_structural_element_ok in H
      as (_ & elem_type & _ & Hl & Hc & _ & _ & _ & Hqs).
    split; [| exact Hqs]. injection Hl as <-. exact Hc. }
  split; [| split; [exact Hnode | split; [| split]]].
  - intros Hv.
    destruct (valid_tree_compiles (Directory paths) 3 basepath provisional
                (le_n 3) Hv) as [node H].
    exists node. split; [exact H | exact (Hnode node H)].
  - intros name content Hin Hname Hbad.
    apply (unreadable_question_raises paths name content); trivial.
    intros full_path. apply question_not_readable, Hbad.
  - intros t i qs i' qs' cs path. split; reflexivity.
  - intros root path w Hc Ht Hs Hcs.
    destruct (root_text_without root path w "i" "ntroduction>" Hc
                eq_refl eq_refl eq_refl eq_refl eq_refl eq_refl eq_refl Ht Hs Hcs)
      as (content & Hr & Hi).
    destruct (root_text_without root path w "e" "xercise>" Hc
                eq_refl eq_refl eq_refl eq_refl eq_refl eq_refl eq_refl Ht Hs Hcs)
      as (content' & Hr' & He).
    exists content. split; [exact Hr |]. split; [exact Hi |].
    rewrite Hr in Hr'. injection Hr' as <-. exact He.
Qed.

(** ** Which walks return, and what the others raise *)

Lemma rbind_raise {A B} (r : Result A) (k : A -> Result B) (e : PyError) :
  rbind r k = Raise e -> r = Raise e \/ exists a, r = Ok a /\ k a = Raise e.
Proof. destruct r as [a | e']; simpl; [eauto | intros [= ->]; now left]. Qed.

Lemma each_entry_raise descend basepath level l e :
  forall ptx_elem,
    each_entry descend basepath level l ptx_elem = Raise e ->
    ((level <? 3)%Z = true
     /\ exists p, In p (subdirectories l)
                  /\ descend (snd p) (OsPath.join basepath (fst p)) (fst p) = Raise e)
    \/ (exists q, In q (question_files l)
                  /\ PTXStackQuestion_init (OsPath.join basepath (fst q)) (snd q)
                     = Raise e).
Proof.
  induction l as [| [rel_path here] rest IH]; intros ptx_elem H; [discriminate H |].
  cbn [each_entry] in H. destruct here as [content | paths].
  - cbn [question_files]. unfold is_question_name.
    replace (subdirectories ((rel_path, RegularFile content) :: rest))
      with (subdirectories rest) by reflexivity.
    destruct (endswith rel_path ".xml" && negb (rel_path =? gitsync_category)).
    + apply rbind_raise in H as [H | (question & _ & H)].
      * right. exists (rel_path, content). split; [now left | exact H].
      * destruct (IH _ H) as [Hd | (q & Hin & Hq)]; [now left |].
        right. exists q. split; [now right | exact Hq].
    + now apply IH in H.
  - cbn [question_files].
    replace (subdirectories ((rel_path, Directory paths) :: rest))
      with ((rel_path, Directory paths) :: subdirectories rest) by reflexivity.
    destruct (level <? 3)%Z eqn:E.
    + apply rbind_raise in H as [H | (child & _ & H)].
      * left. split; [reflexivity |].
        exists (rel_path, Directory paths). split; [now left | exact H].
      * destruct (IH _ H) as [(_ & p & Hin & Hp) | Hq]; [| now right].
        left. split; [reflexivity |]. exists p. split; [now right | exact Hp].
    + destruct (IH _ H) as [(Hlt & _) | Hq]; [discriminate Hlt | now right].
Qed.

(** Where an error of the walk of a directory comes from. *)
Lemma compile_structural_element_raise paths basepath provisional level e :
  compile_structural_element (Directory paths) basepath provisional level = Raise e ->
  category_title paths provisional = Raise e
  \/ ((exists t, category_title paths provisional = Ok t) /\ level_map level = Raise e)
  \/ ((level <? 3)%Z = true
      /\ exists p, In p (subdirectories paths)
                   /\ compile_structural_element
                        (snd p) (OsPath.join basepath (fst p)) (fst p) (level + 1)%Z
                      = Raise e)
  \/ (exists q, In q (question_files paths)
                /\ PTXStackQuestion_init (OsPath.join basepath (fst q)) (snd q)
                   = Raise e).
Proof.
  rewrite compile_structural_element_eq. intros H.
  apply rbind_raise in H as [H | (t & Ht & H)]; [now left |].
  apply rbind_raise in H as [H | (elem_type & Hl & H)]; [right; left; eauto |].
  apply each_entry_raise in H as [H | H]; right; right; [left | right]; exact H.
Qed.

Lemma category_title_error paths provisional e :
  category_title paths provisional = Raise e -> build_error e = true.
Proof.
  unfold category_title.
  destruct (contains_name gitsync_category (map fst paths)); [| discriminate].
  destruct (entry gitsync_category paths) as [[[| root |] | sub] |];
    cbn [parse rbind]; try (intros [= <-]; reflexivity).
  destruct (xpath ["quiz"; "question"; "category"; "text"] root) as [| tag0 tags];
    cbn [first rbind]; [intros [= <-]; reflexivity |].
  destruct (text tag0); [discriminate | intros [= <-]; reflexivity].
Qed.

Lemma question_init_error full_path content e :
  PTXStackQuestion_init full_path content = Raise e ->
  e = XMLSyntaxError \/ e = IndexError \/ e = UnicodeDecodeError.
Proof.
  unfold PTXStackQuestion_init. destruct content as [| root |]; cbn [parse rbind].
  - intros [= <-]. now left.
  - destruct (xpath ["quiz"; "question"; "name"; "text"] root);
      cbn [first rbind]; [intros [= <-]; right; now left | discriminate].
  - intros [= <-]. now right; right.
Qed.

Lemma level_map_in_range level :
  (0 <= level <= 3)%Z -> exists elem_type, level_map level = Ok elem_type.
Proof.
  intros H.
  assert (E : level = 0%Z \/ level = 1%Z \/ level = 2%Z \/ level = 3%Z) by lia.
  destruct E as [-> | [-> | [-> | ->]]]; simpl; eauto.
Qed.

Lemma level_map_out_of_range level :
  (level < 0 \/ 3 < level)%Z -> level_map level = Raise KeyError.
Proof.
  intros H. destruct level as [| p | p]; [exfalso; lia | | reflexivity].
  destruct p as [[p | p |] | [p | p |] |]; try reflexivity; exfalso; lia.
Qed.

Lemma level_map_error level e : level_map level = Raise e -> e = KeyError.
Proof.
  destruct (Z_lt_ge_dec level 0) as [Hn | Hn];
    [rewrite level_map_out_of_range by lia; now intros [= <-] |].
  destruct (Z_gt_le_dec level 3) as [Hp | Hp];
    [rewrite level_map_out_of_range by lia; now intros [= <-] |].
  destruct (level_map_in_range level) as [c ->]; [lia | discriminate].
Qed.

Lemma category_title_ok_readable paths provisional t :
  category_title paths provisional = Ok t -> readable_category paths = true.
Proof.
  unfold category_title, readable_category. rewrite contains_name_entry.
  destruct (entry gitsync_category paths) as [[[| root |] | sub] |];
    cbn [parse rbind]; try discriminate; [| reflexivity].
  destruct (xpath ["quiz"; "question"; "category"; "text"] root) as [| tag0 tags];
    cbn [first rbind]; [discriminate |].
  destruct (text tag0); [reflexivity | discriminate].
Qed.

Lemma question_init_ok_readable full_path content question :
  PTXStackQuestion_init full_path content = Ok question ->
  readable_question content = true.
Proof.
  unfold PTXStackQuestion_init, readable_question.
  destruct content as [| root |]; cbn [parse rbind];
    [discriminate | | discriminate].
  destruct (xpath ["quiz"; "question"; "name"; "text"] root);
    cbn [first rbind]; [discriminate | reflexivity].
Qed.

Lemma Forall2_In_l_r {A B} (R : A -> B -> Prop) (l : list A) (l' : list B) :
  Forall2 R l l' -> Forall (fun b => exists a, R a b) l'.
Proof. induction 1; constructor; eauto. Qed.

Lemma compiles_valid_tree here :
  forall bound basepath provisional node,
    compile_structural_element here basepath provisional (level_of bound) = Ok node ->
    bound <= 3 /\ valid_tree bound here = true.
Proof.
  induction here as [content | paths IH] using FsNode_induction;
    intros bound basepath provisional node H; [discriminate H |].
  apply compile_structural_element_ok in H
    as (t & elem_type & Hcat & Hl & _ & _ & _ & Hcs & Hqs).
  assert (Hb : bound <= 3).
  { destruct (Nat.le_gt_cases bound 3) as [Hle | Hgt]; [exact Hle |].
    rewrite level_map_out_of_range in Hl by (unfold level_of; lia). discriminate Hl. }
  split; [exact Hb |].
  cbn [valid_tree]. rewrite (category_title_ok_readable _ _ _ Hcat). cbn [andb].
  apply andb_true_intro. split.
  - apply forallb_forall. intros q Hin.
    apply Forall2_In_l_r in Hqs. rewrite Forall_forall in Hqs.
    destruct (Hqs q Hin) as [question Hq].
    now apply question_init_ok_readable in Hq.
  - destruct bound as [| b]; [reflexivity |].
    rewrite level_of_below in Hcs.
    apply Forall2_In_l_r in Hcs. rewrite Forall_forall in Hcs, IH.
    apply forallb_forall. intros p Hin.
    destruct (isdir (snd p)) eqn:Hdir; [| reflexivity]. cbn [negb orb].
    destruct (Hcs p) as [child Hchild]; [apply filter_In; now split |].
    unfold built_child in Hchild. rewrite level_of_succ in Hchild.
    now apply (IH p Hin) in Hchild.
Qed.

(** X1. The walk returns a node exactly for the valid trees: every
    category file and every question resource that it reads, down to the
    last level, can be read. *)
Theorem build_returns_iff_valid here bound basepath provisional :
  (exists node,
     compile_structural_element here basepath provisional (level_of bound) = Ok node)
  <-> bound <= 3 /\ valid_tree bound here = true.
Proof.
  split.
  - intros [node H]. exact (compiles_valid_tree here bound basepath provisional node H).
  - intros [Hb Hv]. now apply valid_tree_compiles.
Qed.

Lemma build_error_of_walk here :
  forall level basepath provisional e,
    (0 <= level <= 3)%Z ->
    isdir here = true ->
    compile_structural_element here basepath provisional level = Raise e ->
    build_error e = true.
Proof.
  induction here as [content | paths IH] using FsNode_induction;
    intros level basepath provisional e Hlevel Hdir H; [discriminate Hdir |].
  apply compile_structural_element_raise in H
    as [H | [(_ & H) | [(Hlt & p & Hin & H) | (q & _ & H)]]].
  - exact (category_title_error _ _ _ H).
  - destruct (level_map_in_range level Hlevel) as [c Hc]. congruence.
  - apply filter_In in Hin as [Hin Hp]. rewrite Forall_forall in IH.
    apply Z.ltb_lt in Hlt. apply (IH p Hin) in H; [exact H | lia | exact Hp].
  - apply question_init_error in H as [-> | [-> | ->]]; reflexivity.
Qed.



(** X3. At a level that [level_map] does not have, no directory is
    compiled: the walk raises [KeyError] once the category file, if
    there is one, has been read, and the error of the category file
    otherwise. Nothing else of the listing is read. *)
Theorem level_out_of_range_raises paths basepath provisional level :
  (level < 0 \/ 3 < level)%Z ->
  (forall t, category_title paths provisional = Ok t ->
             compile_structural_element (Directory paths) basepath provisional level
             = Raise KeyError)
  /\ (forall e, category_title paths provisional = Raise e ->
                compile_structural_element (Directory paths) basepath provisional level
                = Raise e)
  /\ (forall others,
        entry gitsync_category others = entry gitsync_category paths ->
        compile_structural_element (Directory others) basepath provisional level
        = compile_structural_element (Directory paths) basepath provisional level).
Proof.
  intros H. pose proof (level_map_out_of_range level H) as Hl.
  repeat split.
  - intros t Ht. now rewrite compile_structural_element_eq, Ht; cbn [rbind]; rewrite Hl.
  - intros e He. now rewrite compile_structural_element_eq, He.
  - intros others He. rewrite !compile_structural_element_eq.
    assert (Hc : category_title others provisional = category_title paths provisional)
      by (unfold category_title; now rewrite !contains_name_entry, He).
    rewrite Hc. destruct (category_title paths provisional); cbn [rbind];
      [now rewrite Hl | reflexivity].
Qed.

(** ** The shape of what is compiled *)

Lemma class_eqb_refl c : class_eqb c c = true.
Proof. now destruct c. Qed.

Lemma compiled_shaped here :
  forall level basepath provisional node,
    compile_structural_element here basepath provisional level = Ok node ->
    shaped level node = true.
Proof.
  induction here as [content | paths IH] using FsNode_induction;
    intros level basepath provisional node H; [discriminate H |].
  apply compile_structural_element_ok in H
    as (t & elem_type & _ & Hl & Hc & _ & Hi & Hcs & _).
  destruct node as [c t' i qs cs]. cbn [cls introduction children] in *.
  cbn [shaped cls introduction children]. rewrite Hl, Hc, Hi, class_eqb_refl.
  cbn [is_empty andb].
  destruct (level <? 3)%Z; [| now inversion Hcs].
  assert (IH' : Forall (fun p => forall level basepath provisional node,
                          compile_structural_element (snd p) basepath provisional level
                          = Ok node ->
                          shaped level node = true)
                       (subdirectories paths)).
  { rewrite Forall_forall in IH |- *. intros p Hin.
    apply filter_In in Hin as [Hin _]. exact (IH p Hin). }
  clear IH. induction Hcs as [| child p cs' ps Hchild _ IHc]; [reflexivity |].
  inversion IH' as [| p' ps' Hp Hps]; subst.
  cbn [forallb]. rewrite (Hp _ _ _ _ Hchild). exact (IHc Hps).
Qed.

(** X4. In the tree that a walk begun at [level] returns, the classes
    follow the levels ([level_map] of [level] for the node, of
    [level + 1] for its children, and so on), so that nothing is below a
    subsection and the root class is nowhere but at level 0; and no node
    has an introduction. *)
Theorem built_tree_follows_levels here level basepath provisional node :
  compile_structural_element here basepath provisional level = Ok node ->
  shaped level node = true
  /\ level_map level = Ok (cls node)
  /\ (cls node = PTXSubsection -> children node = [])
  /\ (forall child, In child (children node) ->
                    level_map (level + 1) = Ok (cls child) /\ cls child <> PTXMain).
Proof.
  intros H. pose proof (compiled_shaped here level basepath provisional node H) as Hs.
  split; [exact Hs |].
  destruct node as [c t i qs cs]. cbn [shaped cls introduction children] in *.
  apply andb_prop in Hs as [Hs Hcs]. apply andb_prop in Hs as [Hc _].
  destruct (level_map level) as [elem_type | e] eqn:Hl; [| discriminate Hc].
  assert (E : c = elem_type) by (destruct c, elem_type; try discriminate Hc; reflexivity).
  subst elem_type. split; [reflexivity |].
  rewrite forallb_forall in Hcs. split.
  - intros ->. destruct cs as [| child rest]; [reflexivity | exfalso].
    specialize (Hcs child (or_introl eq_refl)).
    destruct child as [c' t' i' qs' cs']. cbn [shaped cls] in Hcs.
    assert (E : level = 3%Z).
    { destruct (Z_lt_ge_dec level 0) as [Hn | Hn];
        [rewrite level_map_out_of_range in Hl by lia; discriminate Hl |].
      destruct (Z_gt_le_dec level 3) as [Hp | Hp];
        [rewrite level_map_out_of_range in Hl by lia; discriminate Hl |].
      assert (E : level = 0%Z \/ level = 1%Z \/ level = 2%Z \/ level = 3%Z) by lia.
      destruct E as [-> | [-> | [-> | ->]]]; try discriminate Hl; reflexivity. }
    subst level. discriminate Hcs.
  - intros child Hin. specialize (Hcs child Hin).
    destruct child as [c' t' i' qs' cs']. cbn [shaped cls] in Hcs |- *.
    apply andb_prop in Hcs as [Hcs _]. apply andb_prop in Hcs as [Hc' _].
    destruct (level_map (level + 1)) as [elem_type | e] eqn:Hl'; [| discriminate Hc'].
    assert (E : c' = elem_type)
      by (destruct c', elem_type; try discriminate Hc'; reflexivity).
    subst elem_type. split; [reflexivity |]. intros ->.
    assert (Hr : (0 <= level <= 3)%Z).
    { destruct (Z_lt_ge_dec level 0) as [Hn | Hn];
        [rewrite level_map_out_of_range in Hl by lia; discriminate Hl |].
      destruct (Z_gt_le_dec level 3) as [Hp | Hp];
        [rewrite level_map_out_of_range in Hl by lia; discriminate Hl | lia]. }
    assert (E : level = 0%Z \/ level = 1%Z \/ level = 2%Z \/ level = 3%Z) by lia.
    destruct E as [-> | [-> | [-> | ->]]]; discriminate Hl'.
Qed.

(** ** The questions of what is compiled *)

Lemma questions_visited_subdirectories b paths :
  total (map (fun p => questions_visited b (snd p)) paths) =
  total (map (fun p => questions_visited b (snd p)) (subdirectories paths)).
Proof.
  induction paths as [| [name [content | sub]] rest IH]; simpl; auto.
Qed.

Lemma length_flat_map {A B} (f : A -> list B) (l : list A) :
  List.length (flat_map f l) = total (map (fun x => List.length (f x)) l).
Proof.
  induction l as [| x rest IH]; [reflexivity |].
  cbn [flat_map map]. now rewrite length_app, total_cons, IH.
Qed.

Lemma compiled_questions here :
  forall bound basepath provisional node,
    compile_structural_element here basepath provisional (level_of bound) = Ok node ->
    List.length (all_questions node) = questions_visited bound here
    /\ Forall (fun q => xmlid q = slugify (filepath q)) (all_questions node).
Proof.
  induction here as [content | paths IH] using FsNode_induction;
    intros bound basepath provisional node H; [discriminate H |].
  apply compile_structural_element_ok in H
    as (t & elem_type & _ & _ & _ & _ & _ & Hcs & Hqs).
  destruct node as [c t' i qs cs]. cbn [children questions] in Hcs, Hqs.
  cbn [all_questions questions children questions_visited].
  assert (Hown : List.length qs = List.length (question_files paths)
                 /\ Forall (fun q => xmlid q = slugify (filepath q)) qs).
  { clear Hcs. induction Hqs as [| question q qs' files Hq _ IHq];
      [split; [reflexivity | constructor] |].
    destruct IHq as [Hlen Hall]. apply question_init_fields in Hq as [Hf Hx].
    split; [cbn [List.length]; now rewrite Hlen |].
    constructor; [now rewrite Hx, Hf | exact Hall]. }
  destruct Hown as [Hlen Hall]. rewrite length_app, Hlen.
  destruct bound as [| b].
  - change (level_of 0 <? 3)%Z with false in Hcs. inversion Hcs; subst.
    cbn [flat_map]. rewrite app_nil_r. split; [reflexivity | exact Hall].
  - rewrite level_of_below in Hcs.
    rewrite questions_visited_subdirectories, length_flat_map.
    assert (IH' : Forall (fun p => forall basepath provisional node,
                            compile_structural_element (snd p) basepath provisional
                                                       (level_of b) = Ok node ->
                            List.length (all_questions node)
                            = questions_visited b (snd p)
                            /\ Forall (fun q => xmlid q = slugify (filepath q))
                                      (all_questions node))
                         (subdirectories paths)).
    { rewrite Forall_forall in IH |- *. intros p Hin.
      apply filter_In in Hin as [Hin _]. intros bp pr nd. apply (IH p Hin). }
    clear IH.
    assert (Hsub : total (map (fun x => List.length (all_questions x)) cs)
                   = total (map (fun p => questions_visited b (snd p))
                                (subdirectories paths))
                   /\ Forall (fun q => xmlid q = slugify (filepath q))
                             (flat_map all_questions cs)).
    { induction Hcs as [| child p cs' ps Hchild _ IHc];
        [split; [reflexivity | constructor] |].
      inversion IH' as [| p' ps' Hp Hps]; subst.
      unfold built_child in Hchild. rewrite level_of_succ in Hchild.
      apply Hp in Hchild as [Hn Hf]. destruct (IHc Hps) as [IHn IHf].
      cbn [map flat_map]. rewrite !total_cons, Hn, IHn.
      split; [reflexivity | apply Forall_app; now split]. }
    destruct Hsub as [Hn Hf]. rewrite Hn.
    split; [reflexivity | apply Forall_app; now split].
Qed.

(** X5. The tree holds one question for each question resource in the
    directories that the walk reads, no more and no fewer, and the label
    of each is the slug of its path. *)
Theorem built_tree_holds_the_questions here bound basepath provisional node :
  compile_structural_element here basepath provisional (level_of bound) = Ok node ->
  List.length (all_questions node) = questions_visited bound here
  /\ Forall (fun q => xmlid q = slugify (filepath q)) (all_questions node).
Proof. apply compiled_questions. Qed.

(** ** Entries that the walk passes over *)

Lemma entry_without name x before after other :
  name <> other ->
  entry other (before ++ (name, x) :: after)%list = entry other (before ++ after)%list.
Proof.
  intros N. induction before as [| [n y] rest IH]; cbn [app entry].
  - apply String.eqb_neq in N. now rewrite N.
  - now rewrite IH.
Qed.

Lemma category_title_without name x before after provisional :
  name <> gitsync_category ->
  category_title (before ++ (name, x) :: after)%list provisional
  = category_title (before ++ after)%list provisional.
Proof.
  intros N. unfold category_title.
  now rewrite !contains_name_entry, (entry_without name x before after _ N).
Qed.

Lemma each_entry_app descend basepath level l1 l2 :
  forall ptx_elem,
    each_entry descend basepath level (l1 ++ l2)%list ptx_elem
    = rbind (each_entry descend basepath level l1 ptx_elem)
            (each_entry descend basepath level l2).
Proof.
  induction l1 as [| [rel_path here] rest IH]; intros ptx_elem; [reflexivity |].
  cbn [app each_entry]. destruct here as [content | paths].
  - destruct (endswith rel_path ".xml" && negb (rel_path =? gitsync_category));
      [| apply IH].
    destruct (PTXStackQuestion_init (OsPath.join basepath rel_path) content);
      cbn [rbind]; [apply IH | reflexivity].
  - destruct (level <? 3)%Z; [| apply IH].
    destruct (descend (Directory paths) (OsPath.join basepath rel_path) rel_path);
      cbn [rbind]; [apply IH | reflexivity].
Qed.

Lemma compile_without name x before after basepath provisional level :
  name <> gitsync_category ->
  (forall descend ptx_elem,
     each_entry descend basepath level ((name, x) :: after) ptx_elem
     = each_entry descend basepath level after ptx_elem) ->
  compile_structural_element (Directory (before ++ (name, x) :: after)) basepath
                             provisional level
  = compile_structural_element (Directory (before ++ after)) basepath provisional level.
Proof.
  intros N Hskip. rewrite !compile_structural_element_eq.
  rewrite (category_title_without name x before after provisional N).
  destruct (category_title (before ++ after)%list provisional) as [t |];
    [| reflexivity]. cbn [rbind].
  destruct (level_map level) as [elem_type |]; [| reflexivity]. cbn [rbind].
  rewrite !each_entry_app.
  destruct (each_entry _ basepath level before (new elem_type t EmptyString));
    cbn [rbind]; [apply Hskip | reflexivity].
Qed.

(** X6. A file whose name does not end in [.xml] is passed over: with it
    or without it in the listing the walk gives the same, node or error;
    what the file holds is not read. *)
Theorem other_files_are_skipped name content before after basepath provisional level :
  endswith name ".xml" = false ->
  compile_structural_element (Directory (before ++ (name, RegularFile content) :: after))
                             basepath provisional level
  = compile_structural_element (Directory (before ++ after)) basepath provisional level.
Proof.
  intros H. apply compile_without.
  - intros ->. vm_compute in H. discriminate H.
  - intros descend ptx_elem. cbn [each_entry]. now rewrite H.
Qed.

(** X7. From level 3 on a sub-directory is passed over: with it or
    without it in the listing the walk gives the same, and nothing in it
    is read, so that a file there that cannot be read does no harm. *)
Theorem deep_directories_are_skipped name sub before after basepath provisional level :
  (3 <= level)%Z ->
  name <> gitsync_category ->
  compile_structural_element (Directory (before ++ (name, Directory sub) :: after))
                             basepath provisional level
  = compile_structural_element (Directory (before ++ after)) basepath provisional level.
Proof.
  intros H N. apply compile_without; [exact N |].
  intros descend ptx_elem. cbn [each_entry].
  destruct (level <? 3)%Z eqn:E; [apply Z.ltb_lt in E; lia | reflexivity].
Qed.

(** ** The questions in the text of a node *)

Lemma question_render_returns question relative_to w :
  PTXStackQuestion_render question relative_to w
  = (Ok (exercise_block w question relative_to), w).
Proof.
  destruct (read_only_question_render question relative_to w) as [block H].
  unfold exercise_block. rewrite (H w eq_refl). reflexivity.
Qed.

Lemma question_blocks_are qs basepath w :
  comprehension qs (fun question => PTXStackQuestion_render question basepath) w
  = (Ok (map (fun question => exercise_block w question basepath) qs), w).
Proof.
  induction qs as [| q rest IH]; [reflexivity |].
  cbn [comprehension map]. unfold bind at 1. rewrite question_render_returns.
  unfold bind. now rewrite IH.
Qed.

(** What the block of a question holds. *)
Lemma exercise_block_embeds question relative_to w :
  let block := exercise_block w question relative_to in
  embeds block (title_tag question)
  /\ embeds block ("<stack label=" ++ dq ++ xmlid question ++ dq)
  /\ embeds block ("<xi:include href=" ++ dq
                   ++ relpath (cwd w) (filepath question) relative_to ++ dq ++ " />").
Proof.
  unfold exercise_block, PTXStackQuestion_render, bind, getcwd, ret.
  cbn [fst append]. repeat split; find_piece.
Qed.

(** X8. The text of a chapter, section or subsection holds the blocks of
    its questions, in the order of [questions], joined by newlines; and
    the block of a question holds its title, its label and the reference
    to its file, the path of the file relative to [basepath]. *)
Theorem questions_are_rendered_in_order self basepath w :
  cls self <> PTXMain ->
  exists content,
    render self basepath w = (Ok content, w)
    /\ embeds content
         (String.concat nl
            (map (fun q => exercise_block w q basepath) (questions self)))
    /\ forall q,
         In q (questions self) ->
         embeds content (exercise_block w q basepath)
         /\ embeds content (title_tag q)
         /\ embeds content ("<stack label=" ++ dq ++ xmlid q ++ dq)
         /\ embeds content
              ("<xi:include href=" ++ dq
               ++ relpath (cwd w) (filepath q) basepath ++ dq ++ " />").
Proof.
  intros Hc.
  assert (H : exists content,
             render self basepath w = (Ok content, w)
             /\ embeds content
                  (String.concat nl
                     (map (fun q => exercise_block w q basepath) (questions self)))).
  { unfold render, PTXStructuralElement_render, xml_id.
    destruct (cls self); [now elim Hc | ..];
      cbn [element_name]; unfold bind, ret;
      rewrite question_blocks_are; eexists; (split; [reflexivity |]);
      cbn [append]; find_piece. }
  destruct H as (content & Hr & Hall). exists content.
  split; [exact Hr |]. split; [exact Hall |].
  intros q Hin.
  assert (Hq : embeds content (exercise_block w q basepath)).
  { apply (embeds_inside _ _ _ Hall). apply embeds_concat.
    apply (in_map (fun q => exercise_block w q basepath)), Hin. }
  destruct (exercise_block_embeds q basepath w) as (Ht & Hl & Hh).
  repeat split; trivial; eapply embeds_inside; eauto.
Qed.

(** X9. The title goes into the text as it is, between [<title>] and
    [</title>], nothing in it escaped; so does the introduction of a
    chapter, section or subsection. *)
Theorem title_is_rendered_verbatim self basepath w :
  exists content,
    render self basepath w = (Ok content, w)
    /\ embeds content ("<title>" ++ title self ++ "</title>")
    /\ (cls self <> PTXMain ->
        embeds content ("<introduction>
                " ++ introduction self ++ "
                ")).
Proof.
  unfold render, PTXMain_render, PTXStructuralElement_render, xml_id.
  destruct (question_blocks_return (questions self) basepath w) as [blocks Hb].
  destruct (cls self); cbn [element_name]; unfold bind, ret;
    rewrite ?Hb; eexists; (split; [reflexivity |]);
    cbn [append]; (split; [find_piece |]); intros Hc;
    [now elim Hc | find_piece ..].
Qed.

(** ** Suffixes and prefixes of paths *)

Lemma endswith_iff s suffix :
  endswith s suffix = true <-> exists before, s = before ++ suffix.
Proof.
  split.
  - induction s as [| c r IH]; cbn [endswith]; intros H.
    + rewrite orb_false_r in H. apply String.eqb_eq in H as <-.
      now exists EmptyString.
    + apply orb_prop in H as [H | H].
      * apply String.eqb_eq in H as <-. now exists EmptyString.
      * destruct (IH H) as [before ->]. now exists (String c before).
  - intros [before ->]. induction before as [| c r IH]; cbn [append].
    + destruct suffix; cbn [endswith]; now rewrite String.eqb_refl.
    + cbn [endswith]. rewrite IH. apply orb_true_r.
Qed.

Lemma endswith_trans s t u :
  endswith s t = true -> endswith t u = true -> endswith s u = true.
Proof.
  rewrite !endswith_iff. intros [a ->] [b ->]. exists (a ++ b).
  now rewrite append_assoc.
Qed.

Lemma length_append a b : String.length (a ++ b) = String.length a + String.length b.
Proof. induction a as [| c r IH]; simpl; [reflexivity | now rewrite IH]. Qed.

Lemma append_same_length a a' b b' :
  String.length b = String.length b' -> a ++ b = a' ++ b' -> b = b'.
Proof.
  intros Hlen. revert a'. induction a as [| c r IH]; intros a' H.
  - destruct a' as [| c' r']; [exact H |].
    apply (f_equal String.length) in H.
    rewrite !length_append in H. cbn [String.length] in H. lia.
  - destruct a' as [| c' r'].
    + apply (f_equal String.length) in H.
      rewrite !length_append in H. cbn [String.length] in H. lia.
    + cbn [append] in H. injection H as _ H. exact (IH r' H).
Qed.

(** A name that ends in [.ptx] does not end in [.xml]. *)
Lemma ptx_is_not_xml s : endswith s ".ptx" = true -> endswith s ".xml" = false.
Proof.
  intros H. destruct (endswith s ".xml") eqn:E; [exfalso | reflexivity].
  apply endswith_iff in H as [a ->]. apply endswith_iff in E as [a' E].
  apply append_same_length in E; [discriminate E | reflexivity].
Qed.

Lemma join_endswith a b : endswith (OsPath.join a b) b = true.
Proof.
  apply endswith_iff. unfold OsPath.join.
  destruct (OsPath.startswith_sep b); [now exists EmptyString |].
  destruct (is_empty a || OsPath.endswith_sep a); [now exists a |].
  exists (a ++ String OsPath.sep EmptyString). now rewrite append_assoc.
Qed.

Lemma join_begins a b :
  OsPath.startswith_sep b = false -> begins (OsPath.join a b) a.
Proof.
  intros H. unfold OsPath.join. rewrite H.
  destruct (is_empty a || OsPath.endswith_sep a); eexists; reflexivity.
Qed.

Lemma begins_trans s t u : begins s t -> begins t u -> begins s u.
Proof.
  intros [a ->] [b ->]. exists (b ++ a). now rewrite append_assoc.
Qed.

Lemma filename_ptx self : endswith (filename self) ".ptx" = true.
Proof.
  unfold filename. destruct (cls self); [reflexivity | ..];
    apply endswith_iff; eexists; reflexivity.
Qed.

(** ** The paths that [make_files] touches *)

Lemma write_tree_writes_ptx w self :
  forall basepath path content,
    In (WriteFile path content) (write_tree w self basepath) ->
    endswith path ".ptx" = true.
Proof.
  induction self as [c t i qs cs IH] using PTXElement_induction.
  intros basepath path content Hin. cbn [write_tree children] in Hin.
  destruct Hin as [E | Hin].
  - injection E as <- _.
    exact (endswith_trans _ _ _ (join_endswith _ _) (filename_ptx _)).
  - apply in_flat_map in Hin as (child & Hchild & [E | Hin]); [discriminate E |].
    rewrite Forall_forall in IH. exact (IH child Hchild _ _ _ Hin).
Qed.

Lemma write_tree_stays_below w self :
  forall basepath,
    safe_names self = true ->
    Forall (fun c => exists names,
                call_path c = descend basepath names
                /\ forallb single names = true)
           (write_tree w self basepath).
Proof.
  induction self as [c t i qs cs IH] using PTXElement_induction.
  intros basepath H. cbn [safe_names children] in H.
  apply andb_prop in H as [Hf Hcs].
  cbn [write_tree children]. constructor.
  - exists [filename (PTXNode c t i qs cs)]. cbn [call_path forallb].
    split; [reflexivity | now rewrite Hf].
  - rewrite forallb_forall in Hcs. rewrite Forall_forall in IH.
    apply Forall_forall. intros call Hin.
    apply in_flat_map in Hin as (child & Hchild & Hin).
    specialize (Hcs child Hchild). apply andb_prop in Hcs as [Hd Hsafe].
    destruct Hin as [<- | Hin].
    + exists [foldername child]. cbn [call_path forallb].
      split; [reflexivity | now rewrite Hd].
    + pose proof (IH child Hchild (OsPath.join basepath (foldername child)) Hsafe)
        as Hbelow.
      rewrite Forall_forall in Hbelow.
      destruct (Hbelow call Hin) as (names & Hpath & Hnames).
      exists (foldername child :: names). cbn [forallb].
      split; [exact Hpath | now rewrite Hd].
Qed.

Lemma write_tree_counts w self :
  forall basepath,
    List.length (filter is_write (write_tree w self basepath)) = node_count self
    /\ List.length (write_tree w self basepath) = 2 * node_count self - 1.
Proof.
  induction self as [c t i qs cs IH] using PTXElement_induction.
  intros basepath. cbn [write_tree children node_count filter is_write List.length].
  assert (H : List.length
                (filter is_write
                   (flat_map
                      (fun child =>
                         Makedirs (OsPath.join basepath (foldername child)) true
                         :: write_tree w child (OsPath.join basepath (foldername child)))
                      cs))
              = total (map node_count cs)
              /\ List.length
                   (flat_map
                      (fun child =>
                         Makedirs (OsPath.join basepath (foldername child)) true
                         :: write_tree w child (OsPath.join basepath (foldername child)))
                      cs)
                 = 2 * total (map node_count cs)).
  { induction IH as [| child rest Hchild _ IHrest]; [split; reflexivity |].
    destruct (Hchild (OsPath.join basepath (foldername child))) as [Hw Hl].
    destruct IHrest as [IHw IHl].
    cbn [flat_map map]. rewrite total_cons, <- app_comm_cons.
    cbn [filter is_write List.length]. rewrite filter_app, !length_app, Hw, Hl, IHw, IHl.
    assert (0 < node_count child) by (destruct child; cbn [node_count]; lia).
    split; lia. }
  destruct H as [Hw Hl]. rewrite Hw, Hl. split; lia.
Qed.

Lemma performs_calls expected w out :
  performs expected w out ->
  exists calls,
    oslog (snd out) = (oslog w ++ calls)%list
    /\ (forall c, In c calls -> In c expected)
    /\ (fst out = Ok tt -> calls = expected).
Proof.
  intros (_ & calls & Hlog & (rest & ->) & Hok). exists calls.
  split; [exact Hlog |]. split; [| exact Hok].
  intros c Hin. apply in_or_app. now left.
Qed.

(** X10. Whether it returns or raises, [make_files] writes only files
    whose path ends in [.ptx]: never one whose path ends in [.xml], so
    never a question resource or a category file of the source. *)
Theorem make_files_writes_only_ptx self basepath w :
  exists calls,
    oslog (snd (make_files self basepath w)) = (oslog w ++ calls)%list
    /\ forall path content,
         In (WriteFile path content) calls ->
         endswith path ".ptx" = true /\ endswith path ".xml" = false.
Proof.
  destruct (performs_calls _ _ _ (make_files_performs self basepath w))
    as (calls & Hlog & Hin & _).
  exists calls. split; [exact Hlog |]. intros path content H.
  pose proof (write_tree_writes_ptx w self basepath path content (Hin _ H)) as Hp.
  split; [exact Hp | exact (ptx_is_not_xml _ Hp)].
Qed.

(** X11. When every file name and every folder name of the tree is a
    single component of a path (no slash in it) other than [..], every
    path that [make_files] writes or makes is [basepath] joined with
    such components, one after the other: no call goes up from
    [basepath] or to an absolute path. *)
Theorem make_files_stays_below_basepath self basepath w :
  safe_names self = true ->
  exists calls,
    oslog (snd (make_files self basepath w)) = (oslog w ++ calls)%list
    /\ Forall (fun c => exists names,
                   call_path c = descend basepath names
                   /\ forallb single names = true)
              calls.
Proof.
  intros H.
  destruct (performs_calls _ _ _ (make_files_performs self basepath w))
    as (calls & Hlog & Hin & _).
  exists calls. split; [exact Hlog |].
  pose proof (write_tree_stays_below w self basepath H) as Hbelow.
  rewrite Forall_forall in Hbelow |- *. intros c Hc. exact (Hbelow c (Hin c Hc)).
Qed.

(** X12. A run of [make_files] that returns has written one file for
    each node of the tree and made one directory for each node but the
    top one. *)
Theorem make_files_writes_one_file_per_node self basepath w w' :
  make_files self basepath w = (Ok tt, w') ->
  exists calls,
    oslog w' = (oslog w ++ calls)%list
    /\ List.length (filter is_write calls) = node_count self
    /\ List.length (filter (fun c => negb (is_write c)) calls) = node_count self - 1.
Proof.
  intros H.
  destruct (performs_calls _ _ _ (make_files_performs self basepath w))
    as (calls & Hlog & _ & Hok).
  rewrite H in Hlog, Hok. cbn [fst snd] in Hlog, Hok.
  exists calls. split; [exact Hlog |]. rewrite (Hok eq_refl).
  destruct (write_tree_counts w self basepath) as [Hw Hl].
  split; [exact Hw |].
  pose proof (filter_length is_write (write_tree w self basepath)) as Hsum.
  lia.
Qed.

(** ** The whole program *)

Lemma question_files_names name content paths :
  In (name, content) (question_files paths) -> is_question_name name = true.
Proof.
  induction paths as [| [n [c | sub]] rest IH]; cbn [question_files]; intros Hin.
  - destruct Hin.
  - destruct (is_question_name n) eqn:E; [| now apply IH].
    destruct Hin as [[= <- _] | Hin]; [exact E | now apply IH].
  - now apply IH.
Qed.

(** The path of every question of the tree ends in [.xml]. *)
Lemma compiled_question_paths here :
  forall level basepath provisional node,
    compile_structural_element here basepath provisional level = Ok node ->
    Forall (fun q => endswith (filepath q) ".xml" = true) (all_questions node).
Proof.
  induction here as [content | paths IH] using FsNode_induction;
    intros level basepath provisional node H; [discriminate H |].
  apply compile_structural_element_ok in H
    as (t & elem_type & _ & _ & _ & _ & _ & Hcs & Hqs).
  destruct node as [c t' i qs cs]. cbn [children questions] in Hcs, Hqs.
  cbn [all_questions questions children]. apply Forall_app. split.
  - assert (Hnames : Forall (fun q => is_question_name (fst q) = true)
                            (question_files paths)).
    { apply Forall_forall. intros [name content] Hin.
      exact (question_files_names _ _ _ Hin). }
    clear Hcs. induction Hqs as [| question q qs' files Hq _ IHq]; constructor.
    + inversion Hnames as [| q' files' Hname _]; subst.
      apply question_init_fields in Hq as [-> _].
      apply (endswith_trans _ _ _ (join_endswith _ _)).
      unfold is_question_name in Hname. now apply andb_prop in Hname as [Hname _].
    + inversion Hnames; subst. now apply IHq.
  - destruct (level <? 3)%Z; [| inversion Hcs; constructor].
    assert (IH' : Forall (fun p => forall level basepath provisional node,
                            compile_structural_element (snd p) basepath provisional level
                            = Ok node ->
                            Forall (fun q => endswith (filepath q) ".xml" = true)
                                   (all_questions node))
                         (subdirectories paths)).
    { rewrite Forall_forall in IH |- *. intros p Hin.
      apply filter_In in Hin as [Hin _]. exact (IH p Hin). }
    clear IH. induction Hcs as [| child p cs' ps Hchild _ IHc]; [constructor |].
    inversion IH' as [| p' ps' Hp Hps]; subst.
    cbn [flat_map]. apply Forall_app. split; [exact (Hp _ _ _ _ Hchild) | exact (IHc Hps)].
Qed.

(** X13. When something that the walk reads cannot be read, [main]
    raises and leaves the world as it was: no file is written and no
    directory made, the tree being compiled whole before the first
    write. *)
Theorem main_writes_nothing_unless_compiled source_stack w :
  valid_tree 3 source_stack = false ->
  exists e,
    main source_stack w = (Raise e, w)
    /\ (isdir source_stack = true -> build_error e = true).
Proof.
  intros Hv. unfold main.
  destruct (compile_structural_element source_stack "source/stack" "Stats Gold" 0)
    as [node | e] eqn:E.
  - apply (compiles_valid_tree source_stack 3) in E as [_ E]. congruence.
  - exists e. split; [reflexivity |]. intros Hd.
    apply (build_error_of_walk source_stack 0 "source/stack" "Stats Gold" e);
      [lia | exact Hd | exact E].
Qed.

(** X14. A run of [main] that returns has compiled a valid tree and
    written it under [source]: first [source/main.ptx], then the rest, in
    all one file for each directory at most 3 levels down in the source,
    and none of them over a question that it read. *)
Theorem main_writes_one_file_per_directory source_stack w w' :
  main source_stack w = (Ok tt, w') ->
  valid_tree 3 source_stack = true
  /\ exists ptx_main calls rest,
       compile_structural_element source_stack "source/stack" "Stats Gold" 0
       = Ok ptx_main
       /\ oslog w' = (oslog w ++ calls)%list
       /\ calls = WriteFile "source/main.ptx" (rendered w ptx_main "source") :: rest
       /\ List.length (filter is_write calls) = dirs_visited 3 source_stack
       /\ forall q content,
            In q (all_questions ptx_main) ->
            ~ In (WriteFile (filepath q) content) calls.
Proof.
  unfold main. intros H.
  destruct (compile_structural_element source_stack "source/stack" "Stats Gold" 0)
    as [node | e] eqn:E; [| discriminate H].
  pose proof (compiles_valid_tree source_stack 3 _ _ _ E) as [_ Hv].
  split; [exact Hv |].
  destruct (performs_calls _ _ _ (make_files_performs node "source" w))
    as (calls & Hlog & _ & Hok).
  rewrite H in Hlog, Hok. cbn [fst snd] in Hlog, Hok. specialize (Hok eq_refl).
  assert (Hcls : cls node = PTXMain).
  { destruct source_stack as [content | paths]; [discriminate E |].
    apply compile_structural_element_ok in E
      as (_ & elem_type & _ & [= <-] & Hc & _). exact Hc. }
  exists node, calls. eexists. split; [reflexivity |]. split; [exact Hlog |].
  split; [| split].
  - rewrite Hok. destruct node as [c t i qs cs]. cbn [cls] in Hcls. subst c.
    reflexivity.
  - rewrite Hok.
    destruct (write_tree_counts w node "source") as [-> _].
    now apply (compiled_measures source_stack 3 "source/stack" "Stats Gold").
  - intros q content Hq Hin. rewrite Hok in Hin.
    apply write_tree_writes_ptx, ptx_is_not_xml in Hin.
    pose proof (compiled_question_paths _ _ _ _ _ E) as Hxml.
    rewrite Forall_forall in Hxml. rewrite (Hxml q Hq) in Hin. discriminate Hin.
Qed.

(** ** What is on the disk after a run *)

Lemma run_call_outcome c w w1 path :
  run_call c w = (Ok tt, w1) ->
  lookup path (disk w1) = outcome path (lookup path (disk w)) c.
Proof.
  destruct c as [p content | p exist_ok]; cbn [run_call outcome].
  - unfold write_file. cbn [logged disk].
    destruct (lookup p (disk w)) as [[old |] |]; intros H;
      try discriminate H; injection H as <-; reflexivity.
  - unfold makedirs. cbn [logged disk].
    destruct (lookup p (disk w)) as [[old |] |] eqn:E; intros H.
    + discriminate H.
    + destruct exist_ok; [| discriminate H]. injection H as <-.
      destruct (String.eqb_spec p path) as [<- | N]; [now rewrite E | reflexivity].
    + injection H as <-. cbn [stored disk lookup logged].
      destruct (String.eqb_spec p path) as [<- | N]; [now rewrite E | reflexivity].
Qed.

Lemma run_calls_outcome l path :
  forall w w1,
    run_calls l w = (Ok tt, w1) ->
    lookup path (disk w1) = fold_left (outcome path) l (lookup path (disk w)).
Proof.
  induction l as [| c rest IH]; intros w w1 H.
  - now injection H as <-.
  - cbn [run_calls] in H. unfold bind in H.
    destruct (run_call c w) as [[[] | e] w'] eqn:E; [| discriminate H].
    cbn [fold_left]. rewrite <- (run_call_outcome c w w' path E). now apply IH.
Qed.

Lemma outcome_untouched l path :
  forall x,
    fold_left (outcome path) l x = None ->
    forall y, fold_left (outcome path) l y = y.
Proof.
  induction l as [| c rest IH]; intros x H y; [reflexivity |].
  cbn [fold_left] in *.
  assert (Hsome : forall e, fold_left (outcome path) rest (Some e) <> None).
  { clear. induction rest as [| c rest IH]; intros e; [discriminate |].
    cbn [fold_left]. destruct c as [p content | p exist_ok]; cbn [outcome];
      destruct (p =? path); apply IH. }
  destruct c as [p content | p exist_ok]; cbn [outcome] in *;
    destruct (p =? path); try (now apply (IH x));
    try (now apply Hsome in H).
  destruct x; now apply Hsome in H.
Qed.

(** Run twice, calls leave a path as they leave it run once. *)
Lemma outcome_twice l path :
  forall x,
    fold_left (outcome path) l (fold_left (outcome path) l x)
    = fold_left (outcome path) l x.
Proof.
  induction l as [| c rest IH] using rev_ind; intros x; [reflexivity |].
  rewrite !fold_left_app. cbn [fold_left].
  set (z := fold_left (outcome path) rest x).
  destruct c as [p content | p exist_ok]; cbn [outcome];
    destruct (p =? path) eqn:E; try (unfold z; now rewrite IH); [reflexivity |].
  destruct z as [e |] eqn:Hz.
  - unfold z in Hz. rewrite <- Hz, IH, Hz. reflexivity.
  - unfold z in Hz. now rewrite (outcome_untouched rest path x Hz).
Qed.

Lemma outcome_keeps_file l path content :
  (forall c, In c l -> is_write c = true -> call_path c <> path) ->
  fold_left (outcome path) l (Some (FileOnDisk content)) = Some (FileOnDisk content).
Proof.
  induction l as [| c rest IH]; intros H; [reflexivity |].
  cbn [fold_left].
  assert (E : outcome path (Some (FileOnDisk content)) c = Some (FileOnDisk content)).
  { destruct c as [p text | p exist_ok]; cbn [outcome].
    - destruct (String.eqb_spec p path) as [-> | N]; [| reflexivity].
      now elim (H (WriteFile path text) (or_introl eq_refl) eq_refl).
    - now destruct (p =? path). }
  rewrite E. apply IH. intros c' Hin. apply H. now right.
Qed.

(** X15. After a run of [make_files] that returns, a path holds the text
    of the last write to it: what an earlier node wrote there is gone
    when a later one has the same file path, and stays otherwise. *)
Theorem make_files_leaves_the_last_write self basepath w w' before path content after :
  make_files self basepath w = (Ok tt, w') ->
  write_tree w self basepath = (before ++ WriteFile path content :: after)%list ->
  (forall c, In c after -> is_write c = true -> call_path c <> path) ->
  lookup path (disk w') = Some (FileOnDisk content).
Proof.
  intros H Hcalls Hlast. rewrite make_files_run_calls, Hcalls in H.
  rewrite (run_calls_outcome _ path w w' H), fold_left_app. cbn [fold_left outcome].
  rewrite String.eqb_refl. now apply outcome_keeps_file.
Qed.

(** X16. A second run of [make_files], on the disk that a first run that
    returned has left, returns and leaves every path as it found it. *)
Theorem make_files_again_changes_nothing self basepath w w1 :
  make_files self basepath w = (Ok tt, w1) ->
  exists w2,
    make_files self basepath w1 = (Ok tt, w2)
    /\ forall path, lookup path (disk w2) = lookup path (disk w1).
Proof.
  intros H. destruct (make_files_again self basepath w w1 H) as [w2 H2].
  exists w2. split; [exact H2 |]. intros path.
  pose proof (make_files_cwd self basepath w) as Hcwd. rewrite H in Hcwd.
  cbn [snd] in Hcwd.
  rewrite make_files_run_calls in H, H2.
  rewrite (write_tree_cwd w w1 Hcwd) in H2.
  rewrite (run_calls_outcome _ path w1 w2 H2), (run_calls_outcome _ path w w1 H).
  apply outcome_twice.
Qed.

(** ** The errors of the category file *)

(** X17. What is wrong with the entry named as the category file is
    what the walk of the directory raises, at every level and whatever
    else the listing holds: [IsADirectoryError] for a directory,
    [XMLSyntaxError] for a file that is not XML, [IndexError] when the
    category node is missing, [AttributeError] when it has no text,
    [UnicodeDecodeError] for a file whose bytes do not decode. *)
Theorem category_fault_is_raised paths x e basepath provisional level :
  entry gitsync_category paths = Some x ->
  category_fault x = Some e ->
  compile_structural_element (Directory paths) basepath provisional level = Raise e.
Proof.
  intros Hx He. apply category_title_raises.
  unfold category_title. rewrite contains_name_entry, Hx.
  destruct x as [[| root |] | sub]; cbn [category_fault] in He.
  - now injection He as <-.
  - cbn [parse rbind].
    destruct (xpath ["quiz"; "question"; "category"; "text"] root) as [| tag0 tags];
      cbn [first rbind]; [now injection He as <- |].
    destruct (text tag0); [discriminate He | now injection He as <-].
  - now injection He as <-.
  - now injection He as <-.
Qed.

End Properties.

#[local] Existing Instance Demo.collaborators.

(** ** The program on the examples *)

Example split_category : split "/" "A/B/Sales" = ["A"; "B"; "Sales"].
Proof. reflexivity. Qed.

Example scenario_tree :
  compile_structural_element Demo.stack_unit1 "source/stack" "Gold" 0 =
  Ok (PTXNode PTXMain "Gold" EmptyString []
        [PTXNode PTXChapter "Unit1" EmptyString
           [{| filepath := "source/stack/Unit1/q1.xml";
               xmlid := "source-stack-unit1-q1-xml";
               title_tag := "<title>First</title>" |}]
           []]).
Proof. reflexivity. Qed.

Example scenario_files :
  map (fun p => fst p) (disk (snd (main Demo.stack_unit1 Demo.world0))) =
  ["source/unit1/unit1.ptx"; "source/unit1"; "source/main.ptx"].
Proof. vm_compute. reflexivity. Qed.

Example deep_is_cut :
  option_map node_depth
    (match compile_structural_element Demo.deep "source/stack" "Gold" 0 with
     | Ok node => Some node
     | Raise _ => None
     end) = Some 3
  /\ dir_depth Demo.deep = 5.
Proof. split; reflexivity. Qed.

Example undecodable_question_raises :
  compile_structural_element
    (Directory [("q1.xml", RegularFile Undecodable)]) "source/stack" "Gold" 0
  = Raise UnicodeDecodeError.
Proof. reflexivity. Qed.

Example second_run_succeeds :
  let w1 := snd (main Demo.stack_unit1 Demo.world0) in
  fst (main Demo.stack_unit1 w1) = Ok tt.
Proof. vm_compute. reflexivity. Qed.

(** ** The claims at concrete inputs *)

Lemma include_resolves_to_child_file_witness :
  In Demo.chapter (children Demo.book)
  /\ make_files Demo.book "source" Demo.world0
     = (Ok tt, snd (make_files Demo.book "source" Demo.world0))
  /\ OsPath.join "source" (rel_path Demo.chapter) = "source/unit-1/unit-1.ptx"
  /\ (exists content,
        render Demo.book "source" Demo.world0 = (Ok content, Demo.world0)
        /\ embeds content ("href=" ++ dq ++ "unit-1/unit-1.ptx" ++ dq))
  /\ (exists calls,
        oslog (snd (make_files Demo.book "source" Demo.world0))
        = (oslog Demo.world0 ++ calls)%list
        /\ In (WriteFile "source/unit-1/unit-1.ptx"
                         (rendered Demo.world0 Demo.chapter "source/unit-1"))
              calls)
  /\ exists content,
       lookup "source/unit-1/unit-1.ptx"
              (disk (snd (make_files Demo.book "source" Demo.world0)))
       = Some (FileOnDisk content).
Proof.
  assert (H : make_files Demo.book "source" Demo.world0
              = (Ok tt, snd (make_files Demo.book "source" Demo.world0)))
    by (vm_compute; reflexivity).
  destruct (include_resolves_to_child_file Demo.book Demo.chapter "source"
              Demo.world0 (or_introl eq_refl))
    as (Hrender & _ & _ & Hlog & _ & _ & Hdisk).
  split; [now left |]. split; [exact H |]. split; [reflexivity |].
  split; [exact Hrender |]. split; [exact (Hlog _ H) | exact (Hdisk _ H)].
Defined.

Lemma make_files_is_write_tree_witness :
  let w1 := snd (make_files Demo.book "source" Demo.world0) in
  make_files Demo.book "source" Demo.world0 = (Ok tt, w1)
  /\ exists w2, make_files Demo.book "source" w1 = (Ok tt, w2).
Proof.
  assert (H : make_files Demo.book "source" Demo.world0
              = (Ok tt, snd (make_files Demo.book "source" Demo.world0)))
    by (vm_compute; reflexivity).
  split; [exact H |].
  exact (proj2 (proj2 (proj2 (proj2 (proj2
           (make_files_is_write_tree Demo.book "source" Demo.world0))))) _ H).
Defined.

Lemma depth_and_count_bounded_witness :
  valid_tree 3 Demo.deep = true
  /\ exists node,
       compile_structural_element Demo.deep "source/stack" "Gold" 0 = Ok node
       /\ node_depth node = 3
       /\ node_count node = 5.
Proof.
  split; [reflexivity |].
  exact (proj1 (depth_and_count_bounded Demo.deep "source/stack" "Gold" eq_refl)).
Defined.

Lemma category_title_overrides_witness :
  entry gitsync_category Demo.sales
  = Some (RegularFile (Demo.category_xml "A/B/Sales"))
  /\ category_title Demo.sales "B" = Ok "Sales"
  /\ exists node,
       compile_structural_element (Directory Demo.sales) "source/stack/B" "B" 1
       = Ok node
       /\ title node = "Sales".
Proof.
  split; [reflexivity |].
  pose proof (category_title_overrides Demo.sales _ _ _ "A/B/Sales"
                "source/stack/B" "B" eq_refl eq_refl eq_refl) as (H1 & _ & H3 & _).
  split; [exact H1 |]. exact (H3 2 (le_S _ _ (le_n 2)) eq_refl).
Defined.


Lemma listing_order_preserved_witness :
  exists node,
    compile_structural_element (Directory Demo.sales) "source/stack/B" "B" 1 = Ok node
    /\ map filepath (questions node)
       = ["source/stack/B/q2.xml"; "source/stack/B/q1.xml"].
Proof.
  eexists. split; [vm_compute; reflexivity |].
  exact (proj1 (listing_order_preserved Demo.sales "source/stack/B" "B" 1 _ eq_refl)).
Defined.


Lemma root_questions_are_not_written_witness :
  valid_tree 3 Demo.deep = true
  /\ exists node,
       compile_structural_element Demo.deep "source/stack" "Gold" 0 = Ok node
       /\ cls node = PTXMain
       /\ List.length (questions node) = 1
       /\ exists content,
            render node "source" Demo.world0 = (Ok content, Demo.world0)
            /\ ~ embeds content "<introduction>"
            /\ ~ embeds content "<exercise>".
Proof.
  split; [reflexivity |].
  pose proof (root_questions_are_not_written (entries_of Demo.deep) "source/stack" "Gold")
    as (Hvalid & _ & _ & _ & Htext).
  destruct (Hvalid eq_refl) as (node & Hnode & Hcls & Hqs).
  exists node. split; [exact Hnode |]. split; [exact Hcls |].
  split; [exact (Forall2_length Hqs) |].
  assert (Hplain : exists n,
             compile_structural_element Demo.deep "source/stack" "Gold" 0 = Ok n
             /\ plain (title n) = true
             /\ plain (title_slug n) = true
             /\ forallb (fun child => plain (rel_path child)) (children n) = true).
  { eexists. split; [vm_compute; reflexivity |]. repeat split; reflexivity. }
  destruct Hplain as (n & Hn & Ht & Hs & Hcs).
  assert (E : n = node)
    by (change (compile_structural_element (Directory (entries_of Demo.deep))
                  "source/stack" "Gold" 0 = Ok node) in Hnode;
        change (compile_structural_element (Directory (entries_of Demo.deep))
                  "source/stack" "Gold" 0 = Ok n) in Hn;
        rewrite Hnode in Hn; now injection Hn).
  subst n. exact (Htext node "source" Demo.world0 Hcls Ht Hs Hcs).
Defined.

(** ** The further properties at concrete inputs *)


Lemma level_out_of_range_raises_witness :
  category_title Demo.sales "B" = Ok "Sales"
  /\ compile_structural_element (Directory Demo.sales) "source/stack/B" "B" 4
     = Raise KeyError.
Proof.
  split; [reflexivity |].
  exact (proj1 (level_out_of_range_raises Demo.sales "source/stack/B" "B" 4
                  ltac:(lia)) "Sales" eq_refl).
Defined.

Lemma built_tree_follows_levels_witness :
  exists node,
    compile_structural_element Demo.deep "source/stack" "Gold" 0 = Ok node
    /\ shaped 0 node = true.
Proof.
  eexists. split; [vm_compute; reflexivity |].
  exact (proj1 (built_tree_follows_levels Demo.deep 0 "source/stack" "Gold" _ eq_refl)).
Defined.

Lemma built_tree_holds_the_questions_witness :
  exists node,
    compile_structural_element Demo.deep "source/stack" "Gold" 0 = Ok node
    /\ List.length (all_questions node) = 4.
Proof.
  eexists. split; [vm_compute; reflexivity |].
  exact (proj1 (built_tree_holds_the_questions Demo.deep 3 "source/stack" "Gold" _
                  eq_refl)).
Defined.

Lemma other_files_are_skipped_witness :
  endswith "notes.txt" ".xml" = false
  /\ compile_structural_element (Directory Demo.sales) "source/stack/B" "B" 1
     = compile_structural_element
         (Directory (removelast Demo.sales)) "source/stack/B" "B" 1.
Proof.
  split; [reflexivity |].
  exact (other_files_are_skipped "notes.txt" NotWellFormed (removelast Demo.sales) []
           "source/stack/B" "B" 1 eq_refl).
Defined.

Lemma deep_directories_are_skipped_witness :
  compile_structural_element
    (Directory [("q.xml", RegularFile (Demo.question_xml "Three"));
                ("U", Directory Demo.broken)])
    "source/stack/B/S/T" "T" 3
  = compile_structural_element
      (Directory [("q.xml", RegularFile (Demo.question_xml "Three"))])
      "source/stack/B/S/T" "T" 3.
Proof.
  exact (deep_directories_are_skipped "U" Demo.broken
           [("q.xml", RegularFile (Demo.question_xml "Three"))] []
           "source/stack/B/S/T" "T" 3 ltac:(lia) ltac:(discriminate)).
Defined.

Lemma questions_are_rendered_in_order_witness :
  exists content,
    render Demo.unit1 "source/unit1" Demo.world0 = (Ok content, Demo.world0)
    /\ embeds content
         ("<xi:include href=" ++ dq ++ "../stack/Unit1/q1.xml" ++ dq ++ " />").
Proof.
  destruct (questions_are_rendered_in_order Demo.unit1 "source/unit1" Demo.world0
              ltac:(discriminate)) as (content & Hr & _ & Hq).
  exists content. split; [exact Hr |].
  exact (proj2 (proj2 (proj2 (Hq Demo.first_question (or_introl eq_refl))))).
Defined.

Lemma make_files_stays_below_basepath_witness :
  safe_names Demo.twins = true
  /\ exists calls,
       oslog (snd (make_files Demo.twins "source" Demo.world0))
       = (oslog Demo.world0 ++ calls)%list
       /\ Forall (fun c => exists names,
                      call_path c = descend "source" names
                      /\ forallb single names = true)
                 calls.
Proof.
  split; [reflexivity |].
  exact (make_files_stays_below_basepath Demo.twins "source" Demo.world0 eq_refl).
Defined.

Lemma make_files_writes_one_file_per_node_witness :
  make_files Demo.twins "source" Demo.world0
  = (Ok tt, snd (make_files Demo.twins "source" Demo.world0))
  /\ exists calls,
       oslog (snd (make_files Demo.twins "source" Demo.world0))
       = (oslog Demo.world0 ++ calls)%list
       /\ List.length (filter is_write calls) = 3
       /\ List.length (filter (fun c => negb (is_write c)) calls) = 2.
Proof.
  assert (H : make_files Demo.twins "source" Demo.world0
              = (Ok tt, snd (make_files Demo.twins "source" Demo.world0)))
    by (vm_compute; reflexivity).
  split; [exact H |].
  exact (make_files_writes_one_file_per_node Demo.twins "source" Demo.world0 _ H).
Defined.

Lemma main_writes_nothing_unless_compiled_witness :
  valid_tree 3 Demo.around_broken = false
  /\ exists e,
       main Demo.around_broken Demo.world0 = (Raise e, Demo.world0)
       /\ (isdir Demo.around_broken = true -> build_error e = true).
Proof.
  split; [reflexivity |].
  exact (main_writes_nothing_unless_compiled Demo.around_broken Demo.world0 eq_refl).
Defined.

Lemma main_writes_one_file_per_directory_witness :
  main Demo.deep Demo.world0 = (Ok tt, snd (main Demo.deep Demo.world0))
  /\ valid_tree 3 Demo.deep = true.
Proof.
  assert (H : main Demo.deep Demo.world0 = (Ok tt, snd (main Demo.deep Demo.world0)))
    by (vm_compute; reflexivity).
  split; [exact H |].
  exact (proj1 (main_writes_one_file_per_directory Demo.deep Demo.world0 _ H)).
Defined.

Lemma make_files_leaves_the_last_write_witness :
  make_files Demo.twins "source" Demo.world0
  = (Ok tt, snd (make_files Demo.twins "source" Demo.world0))
  /\ lookup "source/unit-1/unit-1.ptx"
            (disk (snd (make_files Demo.twins "source" Demo.world0)))
     = Some (FileOnDisk (rendered Demo.world0 Demo.twin "source/unit-1")).
Proof.
  assert (H : make_files Demo.twins "source" Demo.world0
              = (Ok tt, snd (make_files Demo.twins "source" Demo.world0)))
    by (vm_compute; reflexivity).
  split; [exact H |].
  apply (make_files_leaves_the_last_write Demo.twins "source" Demo.world0 _
           (removelast (write_tree Demo.world0 Demo.twins "source"))
           "source/unit-1/unit-1.ptx"
           (rendered Demo.world0 Demo.twin "source/unit-1") [] H).
  - vm_compute. reflexivity.
  - intros c [].
Defined.

Lemma make_files_again_changes_nothing_witness :
  make_files Demo.twins "source" Demo.world0
  = (Ok tt, snd (make_files Demo.twins "source" Demo.world0))
  /\ exists w2,
       make_files Demo.twins "source" (snd (make_files Demo.twins "source" Demo.world0))
       = (Ok tt, w2)
       /\ forall path,
            lookup path (disk w2)
            = lookup path (disk (snd (make_files Demo.twins "source" Demo.world0))).
Proof.
  assert (H : make_files Demo.twins "source" Demo.world0
              = (Ok tt, snd (make_files Demo.twins "source" Demo.world0)))
    by (vm_compute; reflexivity).
  split; [exact H |].
  exact (make_files_again_changes_nothing Demo.twins "source" Demo.world0 _ H).
Defined.

Lemma category_fault_is_raised_witness :
  entry gitsync_category Demo.broken = Some (RegularFile NotWellFormed)
  /\ compile_structural_element (Directory Demo.broken) "source/stack/B/C" "C" 3
     = Raise XMLSyntaxError.
Proof.
  split; [reflexivity |].
  exact (category_fault_is_raised Demo.broken (RegularFile NotWellFormed)
           XMLSyntaxError "source/stack/B/C" "C" 3 eq_refl eq_refl).
Defined.
